(** * The WCO PDF acquisition engine: a shallow embedding

    The development follows [scripts/download-wco-pdfs.ts] (the direct HTTP
    downloader: naming, session cookies, [downloadFile], [checkFileChanged]
    and the batch loop of [main]) and the browser-assisted downloader
    ([downloadPDF] and its download loop).

    - JavaScript strings are [string] (one [ascii] per code unit; the texts
      handled here are file names, URLs and HTTP header values).
    - The output directory is a [gmap string string] from entry name to
      content.
    - Network, randomness and Node's URL parser are the environment [Env].
    - Effects (cookie jar, files, requests issued, pauses, console reports)
      are threaded through a small state-and-exit monad. *)

From Stdlib Require Import ZArith QArith Qround Lia.
From Stdlib Require Import Strings.String Strings.Ascii.
From Stdlib Require Import Numbers.DecimalString Numbers.DecimalNat.
From stdpp Require Import base strings list gmap sorting.

(** ** JavaScript string primitives *)

Module JsString.

(** [String(n)] for a non-negative integer. *)
Definition ofNat (n : nat) : string := NilZero.string_of_uint (Nat.to_uint n).

(** [String(z)] for an integer (HTTP status codes in messages). *)
Definition ofZ (z : Z) : string := NilZero.string_of_int (Z.to_int z).

Fixpoint repeatChar (n : nat) (c : ascii) : string :=
  match n with
  | O => ""
  | S k => String c (repeatChar k c)
  end.

(** [s.padStart(target, c)] with a one-character filler. *)
Definition padStart (target : nat) (c : ascii) (s : string) : string :=
  repeatChar (target - String.length s) c +:+ s.

(** [s.startsWith(p)] *)
Definition startsWith (p s : string) : bool := String.prefix p s.

Fixpoint dropChars (n : nat) (s : string) : string :=
  match n, s with
  | O, _ => s
  | S k, String _ t => dropChars k t
  | S _, "" => ""
  end.

(** [s.endsWith(p)] *)
Definition endsWith (p s : string) : bool :=
  (String.length p <=? String.length s)%nat
  && String.eqb (dropChars (String.length s - String.length p) s) p.

(** [s.includes(p)] *)
Fixpoint includes (p s : string) : bool :=
  String.prefix p s
  || match s with
     | "" => false
     | String _ t => includes p t
     end.

(** [s.split(sep)[0]] for a one-character separator: the text before the
    first separator (the whole string when there is none). *)
Fixpoint beforeFirst (sep : ascii) (s : string) : string :=
  match s with
  | "" => ""
  | String c t => if Ascii.eqb c sep then "" else String c (beforeFirst sep t)
  end.

(** White space removed by [trim()], among the code units 0..255:
    TAB, LF, VT, FF, CR, SPACE and NBSP. *)
Definition isSpace (c : ascii) : bool :=
  let n := nat_of_ascii c in
  ((9 <=? n) && (n <=? 13) || (n =? 32) || (n =? 160))%nat.

Fixpoint trimStart (s : string) : string :=
  match s with
  | "" => ""
  | String c t => if isSpace c then trimStart t else s
  end.

Fixpoint trimEnd (s : string) : string :=
  match s with
  | "" => ""
  | String c t =>
      match trimEnd t with
      | "" => if isSpace c then "" else String c ""
      | t' => String c t'
      end
  end.

Definition trim (s : string) : string := trimEnd (trimStart s).

(** [parts.join(sep)] *)
Fixpoint join (sep : string) (parts : list string) : string :=
  match parts with
  | [] => ""
  | [p] => p
  | p :: rest => p +:+ sep +:+ join sep rest
  end.

(** [s.replace(/pat/g, rep)] for a literal pattern and a replacement text
    without [$]; [skip] counts the characters of a match still to drop. *)
Fixpoint replaceFrom (pat rep : string) (skip : nat) (s : string) : string :=
  match s with
  | "" => ""
  | String c t =>
      match skip with
      | S k => replaceFrom pat rep k t
      | O =>
          if String.prefix pat s
          then rep +:+ replaceFrom pat rep (String.length pat - 1) t
          else String c (replaceFrom pat rep 0 t)
      end
  end.

Definition replaceAll (pat rep s : string) : string := replaceFrom pat rep 0 s.

(** [s.split(sep)[0]] for a non-empty separator text. *)
Fixpoint beforeFirstSub (sep s : string) : string :=
  if String.prefix sep s then ""
  else match s with
       | "" => ""
       | String c t => String c (beforeFirstSub sep t)
       end.

(** [s.substring(0, s.lastIndexOf(sep))] for a one-character [sep]. *)
Fixpoint beforeLast (sep : ascii) (s : string) : string :=
  match s with
  | "" => ""
  | String c t => if includes (String sep "") t then String c (beforeLast sep t) else ""
  end.

Definition isDigit (c : ascii) : bool :=
  let n := nat_of_ascii c in ((48 <=? n) && (n <=? 57))%nat.

Definition digitValue (c : ascii) : Z := Z.of_nat (nat_of_ascii c) - 48.

Fixpoint parseDigits (acc : Z) (s : string) : Z :=
  match s with
  | String c t => if isDigit c then parseDigits (10 * acc + digitValue c) t else acc
  | "" => acc
  end.

(** [parseInt(s, 10)]: leading white space, an optional sign, then the
    longest run of decimal digits; [None] is [NaN]. *)
Definition parseInt (s : string) : option Z :=
  let body (t : string) : option Z :=
    match t with
    | String c _ => if isDigit c then Some (parseDigits 0 t) else None
    | "" => None
    end in
  match trimStart s with
  | String "-" t => Z.opp <$> body t
  | String "+" t => body t
  | t => body t
  end.

End JsString.

(** ** Naming: URLs and file names *)

Definition BASE_URL : string :=
  "https://www.wcoomd.org/-/media/wco/public/global/pdf/topics/nomenclature/instruments-and-tools/hs-nomenclature-{EDITION}/{EDITION}/{CHAPTER}{HEADING}_{EDITION}e.pdf".

Definition BASE_URL_ADDITIONAL : string :=
  "https://www.wcoomd.org/-/media/wco/public/global/pdf/topics/nomenclature/instruments-and-tools/hs-nomenclature-{EDITION}/{EDITION}/{FILENAME}".

Definition DEFAULT_ADDITIONAL_PDFS : list string := ["introduction_{EDITION}e.pdf"].

(** One heading code of [generateHeadings]: [String(heading).padStart(2, '0')]. *)
Definition headingCode (heading : nat) : string :=
  JsString.padStart 2 "0" (JsString.ofNat heading).

(** [generateHeadings(chapter)]: the codes of headings 1 to 99, in order. *)
Definition generateHeadings (chapter : nat) : list string :=
  headingCode <$> seq 1 99.

Definition buildUrl (edition : string) (chapter : nat) (heading : string) : string :=
  JsString.replaceAll "{HEADING}" heading
    (JsString.replaceAll "{CHAPTER}" (JsString.padStart 2 "0" (JsString.ofNat chapter))
       (JsString.replaceAll "{EDITION}" edition BASE_URL)).

Definition buildAdditionalUrl (edition filename : string) : string :=
  JsString.replaceAll "{FILENAME}" filename
    (JsString.replaceAll "{EDITION}" edition BASE_URL_ADDITIONAL).

(** The file name of a grid item, as [main] builds it:
    [`${String(chapter).padStart(2, '0')}${heading}_${config.edition}e.pdf`]. *)
Definition gridFilename (edition : string) (chapter : nat) (heading : string) : string :=
  JsString.padStart 2 "0" (JsString.ofNat chapter) +:+ heading +:+ "_" +:+ edition +:+ "e.pdf".

(** The file name of an additional (named) document: the template with the
    edition substituted. *)
Definition additionalFilename (edition template : string) : string :=
  JsString.replaceAll "{EDITION}" edition template.

(** Two decimal digits, zero padded: the reading of [{n:02d}] for [n < 100]. *)
Definition digitAscii (d : nat) : ascii := ascii_of_nat (48 + d).

Definition twoDigits (n : nat) : string :=
  String (digitAscii (n / 10)) (String (digitAscii (n mod 10)) "").

(** ** The environment: network, randomness, Node's URL parser *)

Record Response := {
  statusCode : Z;
  location : option string;          (* headers.location *)
  setCookie : option (list string);  (* headers['set-cookie'] *)
  contentLength : option string;     (* headers['content-length'] *)
  body : string
}.

(** What [protocol.get] of [downloadFile] and [downloadPDF] delivers: a
    response or an ['error'] event (no timeout is armed on these requests). *)
Inductive GetResult :=
| GetResponse (r : Response)
| GetError (message : string).

(** What a request with a 10 s timeout delivers (the HEAD of
    [checkFileChanged], the warm-up visit of [establishSession]). *)
Inductive ProbeResult :=
| ProbeResponse (r : Response)
| ProbeError
| ProbeTimeout.

(** [new URL(u)]: the parts the scripts read. *)
Record UrlParts := { protocol : string; host : string; pathname : string }.

Record Env := {
  httpGet : nat -> string -> GetResult;      (* n-th request of the run, URL *)
  httpHead : nat -> string -> ProbeResult;
  httpVisit : nat -> string -> ProbeResult;
  random : nat -> Q;                         (* n-th value of Math.random() *)
  validUrl : string -> bool;                 (* false: new URL(u) throws *)
  parseUrl : string -> UrlParts;             (* new URL(u), for a valid u *)
  decodeURIComponent : string -> option string;
  resolveUrl : string -> string -> option string;  (* new URL(rel, base).href *)
  basename : string -> string                (* path.basename *)
}.


(** ** Observable effects *)

(** The item on whose behalf a request is issued: the warm-up visit, an
    additional (named, mandatory) document, a chapter/heading grid item, or a
    link found by the browser. *)
Inductive Item :=
| WarmUp
| Additional (filename : string)
| Grid (chapter : nat) (heading : string)
| Link (url : string).

(** The varying fields of [getBrowserHeaders]. *)
Record Headers := {
  userAgent : string;
  referer : option string;
  cookie : option string
}.

(** Console lines of the batch loops. *)
Inductive Report :=
| Downloaded (filename : string) (bytes : nat)
| NotFound (filename url : string)
| Failed (filename message : string)
| DryRun (filename : string)
| Resuming (chapter heading : nat)
| AlreadyExists (filename : string)
| InvalidUrl (url : string)
| InvalidPdf (url : string)
| DownloadError (url message : string).

Inductive Event :=
| EvVisit (url : string) (h : Headers) (res : ProbeResult)
| EvHead (item : Item) (url : string) (h : Headers) (res : ProbeResult)
| EvGet (item : Item) (url : string) (h : Headers) (res : GetResult)
| EvSleep (ms : Q)
| EvLog (r : Report).

Record World := {
  cookieJar : string;             (* let cookieJar: string = '' *)
  files : gmap string string;     (* the output directory *)
  trace : list Event;             (* oldest first *)
  requests : nat;                 (* requests issued so far *)
  draws : nat;                    (* Math.random() calls so far *)
  current : Item                  (* the item being processed *)
}.

Definition initialWorld (dir : gmap string string) : World :=
  {| cookieJar := ""; files := dir; trace := []; requests := 0; draws := 0;
     current := WarmUp |}.

(** ** A state monad with process exit *)

Inductive Outcome (A : Type) :=
| Ret (a : A)
| Exit (code : Z)    (* process.exit(code), or an uncaught exception (code 1) *)
| Stuck.             (* recursion budget exhausted; shown unreachable *)
Arguments Ret {A} a.
Arguments Exit {A} code.
Arguments Stuck {A}.

Definition M (A : Type) : Type := World -> Outcome A * World.

Definition ret {A} (a : A) : M A := fun w => (Ret a, w).

Definition bind {A B} (m : M A) (f : A -> M B) : M B :=
  fun w =>
    match m w with
    | (Ret a, w') => f a w'
    | (Exit c, w') => (Exit c, w')
    | (Stuck, w') => (Stuck, w')
    end.

Definition exit {A} (code : Z) : M A := fun w => (Exit code, w).
Definition stuck {A} : M A := fun w => (Stuck, w).

Declare Scope run_scope.
Delimit Scope run_scope with run.
Notation "x <- m ;; k" := (bind m (fun x => k))
  (at level 100, m at next level, right associativity) : run_scope.
Notation "m ;; k" := (bind m (fun _ => k))
  (at level 100, right associativity) : run_scope.
Local Open Scope run_scope.

Definition emit (e : Event) : M unit :=
  fun w => (Ret tt,
            {| cookieJar := cookieJar w; files := files w; trace := trace w ++ [e];
               requests := requests w; draws := draws w; current := current w |}).

Definition setCookieJar (jar : string) : M unit :=
  fun w => (Ret tt,
            {| cookieJar := jar; files := files w; trace := trace w;
               requests := requests w; draws := draws w; current := current w |}).

Definition setFiles (dir : gmap string string) : M unit :=
  fun w => (Ret tt,
            {| cookieJar := cookieJar w; files := dir; trace := trace w;
               requests := requests w; draws := draws w; current := current w |}).

Definition setCurrent (item : Item) : M unit :=
  fun w => (Ret tt,
            {| cookieJar := cookieJar w; files := files w; trace := trace w;
               requests := requests w; draws := draws w; current := item |}).

Definition tickRequests : M nat :=
  fun w => (Ret (requests w),
            {| cookieJar := cookieJar w; files := files w; trace := trace w;
               requests := S (requests w); draws := draws w; current := current w |}).

Definition tickDraws : M nat :=
  fun w => (Ret (draws w),
            {| cookieJar := cookieJar w; files := files w; trace := trace w;
               requests := requests w; draws := S (draws w); current := current w |}).

Definition getCookieJar : M string := fun w => (Ret (cookieJar w), w).
Definition getFiles : M (gmap string string) := fun w => (Ret (files w), w).
Definition getCurrent : M Item := fun w => (Ret (current w), w).

Definition when (b : bool) (m : M unit) : M unit := if b then m else ret tt.

Fixpoint forEach {A S : Type} (step : S -> A -> M S) (xs : list A) (s : S) : M S :=
  match xs with
  | [] => ret s
  | x :: rest => s' <- step s x ;; forEach step rest s'
  end.

(** ** File system operations on the output directory *)

(** [createWriteStream(path)]: the entry is created, or truncated. *)
Definition createWriteStream (path : string) : M unit :=
  dir <- getFiles ;; setFiles (<[path := ""]> dir).

Definition writeFile (path content : string) : M unit :=
  dir <- getFiles ;; setFiles (<[path := content]> dir).

Definition unlink (path : string) : M unit :=
  dir <- getFiles ;; setFiles (delete path dir).

Definition fileExists (path : string) : M bool :=
  dir <- getFiles ;; ret (bool_decide (is_Some (dir !! path))).

Definition getLocalFileSize (path : string) : M (option nat) :=
  dir <- getFiles ;; ret (String.length <$> dir !! path).

(** The recurring clean-up of [downloadFile]: remove the entry when it exists
    and holds fewer than 100 bytes. *)
Definition unlinkIfSmall (path : string) : M unit :=
  dir <- getFiles ;;
  match dir !! path with
  | Some content =>
      when ((String.length content =? 0)%nat || (String.length content <? 100)%nat)
           (unlink path)
  | None => ret tt
  end.

(** [readdir]: the entry names; the caller sorts them. *)
Definition readdir : M (list string) :=
  dir <- getFiles ;; ret (fst <$> map_to_list dir).

(** ** Session context *)

Definition CHROME_USER_AGENTS : list string := [
  "Mozilla/5.0 (Windows NT 10.0; Win64; x64) AppleWebKit/537.36 (KHTML, like Gecko) Chrome/120.0.0.0 Safari/537.36";
  "Mozilla/5.0 (Macintosh; Intel Mac OS X 10_15_7) AppleWebKit/537.36 (KHTML, like Gecko) Chrome/120.0.0.0 Safari/537.36";
  "Mozilla/5.0 (X11; Linux x86_64) AppleWebKit/537.36 (KHTML, like Gecko) Chrome/120.0.0.0 Safari/537.36";
  "Mozilla/5.0 (Windows NT 10.0; Win64; x64) AppleWebKit/537.36 (KHTML, like Gecko) Chrome/121.0.0.0 Safari/537.36";
  "Mozilla/5.0 (Macintosh; Intel Mac OS X 10_15_7) AppleWebKit/537.36 (KHTML, like Gecko) Chrome/121.0.0.0 Safari/537.36"
].

(** A JavaScript string used as a condition: the empty string is falsy. *)
Definition truthy (s : string) : bool := negb (String.eqb s "").

Section WithEnv.

Variable env : Env.

Definition mathRandom : M Q := n <- tickDraws ;; ret (random env n).

Definition getRandomUserAgent : M string :=
  r <- mathRandom ;;
  ret (nth (Z.to_nat (Qfloor (r * inject_Z (Z.of_nat (List.length CHROME_USER_AGENTS)))))
           CHROME_USER_AGENTS "").

(** [getBrowserHeaders(referer)]; an absent referer is [""]. The constant
    fields of the bundle are left out. *)
Definition getBrowserHeaders (ref : string) : M Headers :=
  ua <- getRandomUserAgent ;;
  jar <- getCookieJar ;;
  ret {| userAgent := ua;
         referer := if truthy ref then Some ref else None;
         cookie := if truthy jar then Some jar else None |}.

(** The [name=value] texts that [extractCookies] keeps from the
    [Set-Cookie] header lines. *)
Definition cookiePairs (setCookieHeaders : list string) : list string :=
  List.filter truthy ((fun h => JsString.trim (JsString.beforeFirst ";" h)) <$> setCookieHeaders).

Definition extractCookies (response : Response) : M unit :=
  match setCookie response with
  | Some setCookieHeaders =>
      let cookies := cookiePairs setCookieHeaders in
      when (0 <? List.length cookies)%nat (setCookieJar (JsString.join "; " cookies))
  | None => ret tt
  end.

Definition mainPageUrl (edition : string) : string :=
  "https://www.wcoomd.org/en/topics/nomenclature/instrument-and-tools/hs-nomenclature-"
  +:+ edition +:+ "-edition/hs-nomenclature-" +:+ edition +:+ "-edition.aspx".

(** [establishSession]: the warm-up visit. The request carries no cookie;
    whatever happens, the main page URL is the referer from then on. *)
Definition establishSession (edition : string) : M string :=
  let url := mainPageUrl edition in
  h <- getBrowserHeaders "" ;;
  let h := {| userAgent := userAgent h; referer := referer h; cookie := None |} in
  n <- tickRequests ;;
  let res := httpVisit env n url in
  emit (EvVisit url h res) ;;
  match res with
  | ProbeResponse response => extractCookies response ;; ret url
  | ProbeError => ret url
  | ProbeTimeout => ret url
  end.

(** ** Pacing *)

Definition getRandomDelay (baseDelay variation : Q) : M Q :=
  r <- mathRandom ;;
  ret (baseDelay + inject_Z (Qfloor (r * variation)))%Q.

Definition sleep (ms : Q) : M unit := emit (EvSleep ms).

(** ** Fetcher, direct HTTP strategy: [downloadFile] *)

Definition isRedirect (code : Z) : bool :=
  (code =? 301)%Z || (code =? 302)%Z || (code =? 303)%Z || (code =? 307)%Z || (code =? 308)%Z.

(** The target of a redirect. [currentUrl] has just been requested, so it
    is a URL the HTTP client accepted and [new URL(currentUrl)] succeeds. *)
Definition redirectTarget (currentUrl loc : string) : string :=
  if JsString.startsWith "http://" loc || JsString.startsWith "https://" loc then loc
  else if JsString.startsWith "//" loc then
    JsString.beforeFirstSub "://" currentUrl +:+ "://" +:+ JsString.dropChars 2 loc
  else if JsString.startsWith "/" loc then
    let urlObj := parseUrl env currentUrl in
    protocol urlObj +:+ "//" +:+ host urlObj +:+ loc
  else
    let urlObj := parseUrl env currentUrl in
    protocol urlObj +:+ "//" +:+ host urlObj
    +:+ JsString.beforeLast "/" (pathname urlObj) +:+ "/" +:+ loc.

Record DownloadResult := {
  success : bool;
  status : option Z;
  error : option string;
  size : option nat
}.

(** How the promise of [downloadFile] settles. *)
Inductive Settled :=
| Resolved (r : DownloadResult)
| Rejected (message : string).

Definition failure (code : Z) (message : string) : Settled :=
  Resolved {| success := false; status := Some code; error := Some message; size := None |}.

(** One GET with the session headers; the response updates the cookie jar. *)
Definition sessionGet (currentUrl ref : string) : M GetResult :=
  h <- getBrowserHeaders ref ;;
  item <- getCurrent ;;
  n <- tickRequests ;;
  let res := httpGet env n currentUrl in
  emit (EvGet item currentUrl h res) ;;
  match res with
  | GetResponse response => extractCookies response ;; ret res
  | GetError _ => ret res
  end.

(** [attemptDownload] of [downloadFile]. [previousUrl] is [""] when absent.
    A retry is scheduled by a timer of [1000 * attempt] ms. *)
Fixpoint attemptDownload (fuel : nat) (outputPath refererUrl : string) (retries : Z)
    (maxRedirects : nat) (attempt : Z) (currentUrl : string) (redirectCount : nat)
    (previousUrl : string) : M Settled :=
  match fuel with
  | O => stuck
  | S fuel' =>
    if (maxRedirects <=? redirectCount)%nat then ret (failure 0 "Too many redirects")
    else
      let ref := if truthy previousUrl then previousUrl else refererUrl in
      createWriteStream outputPath ;;
      res <- sessionGet currentUrl ref ;;
      match res with
      | GetResponse response =>
          let code := statusCode response in
          if isRedirect code then
            match location response with
            | Some loc =>
                if truthy loc then
                  if JsString.includes "/error" loc || JsString.includes "404" loc then
                    unlinkIfSmall outputPath ;;
                    ret (failure 404 "Not Found (redirected to error page)")
                  else
                    attemptDownload fuel' outputPath refererUrl retries maxRedirects
                      attempt (redirectTarget currentUrl loc) (S redirectCount) currentUrl
                else
                  unlink outputPath ;;
                  ret (failure code ("HTTP " +:+ JsString.ofZ code +:+ " - No redirect location"))
            | None =>
                unlink outputPath ;;
                ret (failure code ("HTTP " +:+ JsString.ofZ code +:+ " - No redirect location"))
            end
          else if (code =? 404)%Z then
            unlinkIfSmall outputPath ;;
            ret (failure 404 "Not Found")
          else if negb (code =? 200)%Z then
            when ((500 <=? code)%Z && (retries <=? attempt)%Z) (unlinkIfSmall outputPath) ;;
            if (attempt <? retries)%Z then
              sleep (inject_Z (1000 * attempt)) ;;
              attemptDownload fuel' outputPath refererUrl retries maxRedirects
                (attempt + 1) currentUrl redirectCount previousUrl
            else ret (failure code ("HTTP " +:+ JsString.ofZ code))
          else
            writeFile outputPath (body response) ;;
            ret (Resolved {| success := true; status := None; error := None;
                             size := Some (String.length (body response)) |})
      | GetError message =>
          when (retries <=? attempt)%Z (unlinkIfSmall outputPath) ;;
          if (attempt <? retries)%Z then
            sleep (inject_Z (1000 * attempt)) ;;
            attemptDownload fuel' outputPath refererUrl retries maxRedirects
              (attempt + 1) currentUrl redirectCount previousUrl
          else ret (Rejected message)
      end
  end.

(** Requests still possible from [(attempt, redirectCount)], plus one. *)
Definition downloadBudget (retries : Z) (maxRedirects : nat) (attempt : Z)
    (redirectCount : nat) : nat :=
  S (Z.to_nat (retries - attempt) + (maxRedirects - redirectCount)).

Definition downloadFile (url outputPath refererUrl : string) (retries : Z)
    (maxRedirects : nat) : M Settled :=
  attemptDownload (downloadBudget retries maxRedirects 1 0) outputPath refererUrl
    retries maxRedirects 1 url 0 "".

(** ** Change detector: [checkFileChanged] *)

Definition baseReferer : string :=
  "https://www.wcoomd.org/en/topics/nomenclature/instrument-and-tools/hs-nomenclature-2022-edition/hs-nomenclature-2022-edition.aspx".

(** [parseInt(headers['content-length'] || '0', 10)] *)
Definition remoteSizeOf (response : Response) : option Z :=
  JsString.parseInt
    match contentLength response with
    | Some v => if truthy v then v else "0"
    | None => "0"
    end.

(** [localSize === null || localSize !== remoteSize] *)
Definition sizesDiffer (localSize : option nat) (remoteSize : option Z) : bool :=
  match localSize, remoteSize with
  | Some l, Some r => negb (Z.of_nat l =? r)%Z
  | _, _ => true
  end.

(** One HEAD with the session headers and the fixed referer; the response
    is not searched for cookies. *)
Definition sessionHead (currentUrl : string) : M ProbeResult :=
  h <- getBrowserHeaders baseReferer ;;
  item <- getCurrent ;;
  n <- tickRequests ;;
  let res := httpHead env n currentUrl in
  emit (EvHead item currentUrl h res) ;;
  ret res.

Fixpoint checkFile (fuel : nat) (localPath : string) (maxRedirects : nat)
    (currentUrl : string) (redirectCount : nat) : M bool :=
  match fuel with
  | O => stuck
  | S fuel' =>
    if (maxRedirects <=? redirectCount)%nat then ret true
    else
      res <- sessionHead currentUrl ;;
      match res with
      | ProbeResponse response =>
          let code := statusCode response in
          if isRedirect code then
            match location response with
            | Some loc =>
                if truthy loc then
                  checkFile fuel' localPath maxRedirects (redirectTarget currentUrl loc)
                    (S redirectCount)
                else ret true
            | None => ret true
            end
          else if (code =? 404)%Z then ret true
          else if negb (code =? 200)%Z then ret true
          else
            localSize <- getLocalFileSize localPath ;;
            ret (sizesDiffer localSize (remoteSizeOf response))
      | ProbeError => ret true
      | ProbeTimeout => ret true
      end
  end.

Definition checkFileChanged (url localPath : string) (maxRedirects : nat) : M bool :=
  checkFile (S maxRedirects) localPath maxRedirects url 0.

(** ** Batch orchestrator: [main] of the direct HTTP script *)

Record Config := {
  edition : string;
  chapters : list nat;         (* parseChapters(config.chapters) *)
  delay : Z;
  delayVariation : Z;
  retries : Z;
  resume : bool;
  dryRun : bool;
  checkExisting : bool;
  skipExisting : bool
}.

Record Totals := {
  totalAttempted : nat;
  totalDownloaded : nat;
  totalFailed : nat;
  totalSkipped : nat;
  statsDownloaded : list string;            (* stats.downloaded, by file name *)
  statsFailed : list (string * string)      (* stats.failed: file name, error *)
}.

Definition noTotals : Totals :=
  {| totalAttempted := 0; totalDownloaded := 0; totalFailed := 0; totalSkipped := 0;
     statsDownloaded := []; statsFailed := [] |}.

Definition attempted (t : Totals) : Totals :=
  {| totalAttempted := S (totalAttempted t); totalDownloaded := totalDownloaded t;
     totalFailed := totalFailed t; totalSkipped := totalSkipped t;
     statsDownloaded := statsDownloaded t; statsFailed := statsFailed t |}.

Definition skipped (t : Totals) : Totals :=
  {| totalAttempted := totalAttempted t; totalDownloaded := totalDownloaded t;
     totalFailed := totalFailed t; totalSkipped := S (totalSkipped t);
     statsDownloaded := statsDownloaded t; statsFailed := statsFailed t |}.

(** The dry-run branch counts the item without recording it in [stats]. *)
Definition wouldDownload (t : Totals) : Totals :=
  {| totalAttempted := totalAttempted t; totalDownloaded := S (totalDownloaded t);
     totalFailed := totalFailed t; totalSkipped := totalSkipped t;
     statsDownloaded := statsDownloaded t; statsFailed := statsFailed t |}.

Definition downloaded (filename : string) (t : Totals) : Totals :=
  {| totalAttempted := totalAttempted t; totalDownloaded := S (totalDownloaded t);
     totalFailed := totalFailed t; totalSkipped := totalSkipped t;
     statsDownloaded := statsDownloaded t ++ [filename]; statsFailed := statsFailed t |}.

Definition failed (filename message : string) (t : Totals) : Totals :=
  {| totalAttempted := totalAttempted t; totalDownloaded := totalDownloaded t;
     totalFailed := S (totalFailed t); totalSkipped := totalSkipped t;
     statsDownloaded := statsDownloaded t;
     statsFailed := statsFailed t ++ [(filename, message)] |}.

Definition log (r : Report) : M unit := emit (EvLog r).

(** [result.error || 'Unknown error'] *)
Definition errorText (r : DownloadResult) : string :=
  match error r with
  | Some e => if truthy e then e else "Unknown error"
  | None => "Unknown error"
  end.

(** The pause before a HEAD request and the HEAD itself; [true] when the
    local copy is unchanged and the item is to be skipped. Reached only
    when change detection is on and the file exists. *)
Definition headCheck (cfg : Config) (url outputPath : string) : M bool :=
  when (0 <? delay cfg)%Z
    (headDelay <- getRandomDelay (inject_Z (delay cfg) / 2) (inject_Z (delayVariation cfg) / 2) ;;
     sleep headDelay) ;;
  hasChanged <- checkFileChanged url outputPath 5 ;;
  ret (negb hasChanged).

(** The pause after a download attempt. *)
Definition politePause (cfg : Config) : M unit :=
  when (0 <? delay cfg)%Z
    (randomDelay <- getRandomDelay (inject_Z (delay cfg)) (inject_Z (delayVariation cfg)) ;;
     sleep randomDelay).

(** The branches on the settled download, the same for additional and grid
    items: success is counted, status 404 stops the process with exit code
    1, anything else is counted as failed. *)
Definition recordResult (filename url : string) (res : Settled) (t : Totals) : M Totals :=
  match res with
  | Resolved result =>
      if success result then
        log (Downloaded filename (default 0 (size result))) ;;
        ret (downloaded filename t)
      else if bool_decide (status result = Some 404%Z) then
        log (NotFound filename url) ;;
        exit 1
      else
        log (Failed filename (errorText result)) ;;
        ret (failed filename (errorText result) t)
  | Rejected errorMessage =>
      log (Failed filename errorMessage) ;;
      ret (failed filename errorMessage t)
  end.

(** One item of either loop, from [totalAttempted++] on. *)
Definition processItem (cfg : Config) (refererUrl filename url : string) (t : Totals)
    : M Totals :=
  let outputPath := filename in
  let t := attempted t in
  present <- fileExists outputPath ;;
  if skipExisting cfg && negb (dryRun cfg) && present then ret (skipped t)
  else
    unchanged <- (if checkExisting cfg && negb (dryRun cfg) && present
                  then headCheck cfg url outputPath
                  else ret false) ;;
    if unchanged then ret (skipped t)
    else if dryRun cfg then
      log (DryRun filename) ;;
      ret (wouldDownload t)
    else
      res <- downloadFile url outputPath refererUrl (retries cfg) 5 ;;
      t' <- recordResult filename url res t ;;
      politePause cfg ;;
      ret t'.

(** The body of [for (const pdfTemplate of additionalPdfs)]. *)
Definition additionalStep (cfg : Config) (refererUrl : string) (t : Totals)
    (pdfTemplate : string) : M Totals :=
  let filename := additionalFilename (edition cfg) pdfTemplate in
  let url := buildAdditionalUrl (edition cfg) filename in
  setCurrent (Additional filename) ;;
  processItem cfg refererUrl filename url t.

Record ResumePoint := { rpChapter : nat; rpHeading : nat }.

(** [lastFile.match(/^(\d{2})(\d{2})_(\d{4})e\.pdf$/)]: the two captured
    numbers. *)
Definition matchCoordinate (name : string) : option ResumePoint :=
  match name with
  | String c1 (String c2 (String h1 (String h2 (String "_"
      (String y1 (String y2 (String y3 (String y4 rest)))))))) =>
      if forallb JsString.isDigit [c1; c2; h1; h2; y1; y2; y3; y4]
         && String.eqb rest "e.pdf"
      then Some {| rpChapter := Z.to_nat (JsString.parseDigits 0 (String c1 (String c2 "")));
                   rpHeading := Z.to_nat (JsString.parseDigits 0 (String h1 (String h2 ""))) |}
      else None
  | _ => None
  end.

(** [Array.prototype.sort()] on strings: ascending code-unit order. *)
Definition stringLe (a b : string) : Prop := String.leb a b = true.

Global Instance stringLe_dec (a b : string) : Decision (stringLe a b).
Proof. unfold stringLe. apply _. Defined.

Definition sortStrings (l : list string) : list string := merge_sort stringLe l.

(** The resume cursor: the last of the sorted [.pdf] entries, when it is a
    coordinate file name. *)
Definition findResumePoint (cfg : Config) : M (option ResumePoint) :=
  if resume cfg && negb (dryRun cfg) then
    entries <- readdir ;;
    let pdfFiles := sortStrings (List.filter (JsString.endsWith ".pdf") entries) in
    match last pdfFiles with
    | Some lastFile =>
        match matchCoordinate lastFile with
        | Some rp => log (Resuming (rpChapter rp) (rpHeading rp)) ;; ret (Some rp)
        | None => ret None
        end
    | None => ret None
    end
  else ret None.

(** [headingNum <= resumeFrom.heading], with [NaN] comparing false. *)
Definition headingReached (heading : string) (rp : ResumePoint) : bool :=
  match JsString.parseInt heading with
  | Some headingNum => (headingNum <=? Z.of_nat (rpHeading rp))%Z
  | None => false
  end.

(** The body of [for (const heading of headings)]. *)
Definition headingStep (cfg : Config) (refererUrl : string) (resumeFrom : option ResumePoint)
    (chapter : nat) (t : Totals) (heading : string) : M Totals :=
  let behind :=
    match resumeFrom with
    | Some rp => (chapter =? rpChapter rp)%nat && headingReached heading rp
    | None => false
    end in
  if behind then ret t
  else
    let url := buildUrl (edition cfg) chapter heading in
    let filename := gridFilename (edition cfg) chapter heading in
    setCurrent (Grid chapter heading) ;;
    processItem cfg refererUrl filename url t.

(** The body of [for (const chapter of chapters)]. *)
Definition chapterStep (cfg : Config) (refererUrl : string) (resumeFrom : option ResumePoint)
    (t : Totals) (chapter : nat) : M Totals :=
  let before :=
    match resumeFrom with
    | Some rp => (chapter <? rpChapter rp)%nat
    | None => false
    end in
  if before then ret t
  else forEach (headingStep cfg refererUrl resumeFrom chapter) (generateHeadings chapter) t.

Definition main (cfg : Config) (additionalPdfs : list string) : M Totals :=
  refererUrl <- (if dryRun cfg then ret (mainPageUrl (edition cfg))
                 else establishSession (edition cfg)) ;;
  t <- forEach (additionalStep cfg refererUrl) additionalPdfs noTotals ;;
  resumeFrom <- findResumePoint cfg ;;
  forEach (chapterStep cfg refererUrl resumeFrom) (chapters cfg) t.

(** How a run ends. *)
Inductive Terminal :=
| Completed (t : Totals)    (* main returns: exit code 0 *)
| Aborted (code : Z)
| Unfinished.

Definition terminalOf (o : Outcome Totals) : Terminal :=
  match o with
  | Ret t => Completed t
  | Exit code => Aborted code
  | Stuck => Unfinished
  end.

Definition runMain (cfg : Config) (additionalPdfs : list string) (dir : gmap string string)
    : Terminal * World :=
  let (o, w) := main cfg additionalPdfs (initialWorld dir) in (terminalOf o, w).

End WithEnv.

(** ** Browser-assisted strategy: [downloadPDF] and the download loop of
    [download-wco-pdfs-browser.ts] *)

Section WithBrowser.

Variable env : Env.
Variable pageCookies : list (string * string).   (* page.cookies(): name, value *)
Variable pageUrl : string.                       (* page.url() *)

Definition WCO_BASE_URL : string := "https://www.wcoomd.org".

Definition browserUserAgent : string :=
  "Mozilla/5.0 (Macintosh; Intel Mac OS X 10_15_7) AppleWebKit/537.36 (KHTML, like Gecko) Chrome/120.0.0.0 Safari/537.36".

Definition cookieString : string :=
  JsString.join "; " ((fun c => fst c +:+ "=" +:+ snd c) <$> pageCookies).

(** How the inner promise of [downloadPDF] settles: a buffer, or an error. *)
Definition fetchContent (url : string) : M (string + string) :=
  item <- getCurrent ;;
  n <- tickRequests ;;
  let res := httpGet env n url in
  emit (EvGet item url {| userAgent := browserUserAgent; referer := Some pageUrl;
                          cookie := Some cookieString |} res) ;;
  match res with
  | GetResponse response =>
      let code := statusCode response in
      if (code =? 404)%Z then ret (inl "")
      else if (code =? 403)%Z then ret (inr "Access forbidden (403) - may be blocked")
      else if (code =? 429)%Z then ret (inr "Rate limited (429) - too many requests")
      else if negb (code =? 200)%Z then ret (inr ("HTTP " +:+ JsString.ofZ code))
      else ret (inl (body response))
  | GetError message => ret (inr message)
  end.

Definition downloadPDF (url outputPath : string) : M bool :=
  if validUrl env url then
    settled <- fetchContent url ;;
    match settled with
    | inr message => log (DownloadError url message) ;; ret false
    | inl content =>
        if (String.length content =? 0)%nat then ret false
        else if (String.length content <? 4)%nat || negb (String.prefix "%PDF" content) then
          log (InvalidPdf url) ;; ret false
        else writeFile outputPath content ;; ret true
    end
  else log (DownloadError url "Invalid URL") ;; ret false.

(** [processUrl] of [shared-utils.ts]. *)
Definition stripQuery (href : string) : string :=
  if JsString.includes "?" href then JsString.beforeFirst "?" href else href.

Definition absoluteUrl (href baseUrl : string) : option string :=
  if JsString.startsWith "http" href then Some href else resolveUrl env href baseUrl.

Definition processUrl (href baseUrl : string) : option string :=
  let decodedHref :=
    match decodeURIComponent env href with
    | Some once =>
        if JsString.includes "%" once then default href (decodeURIComponent env once)
        else once
    | None => href
    end in
  match absoluteUrl (stripQuery decodedHref) baseUrl with
  | Some u => Some u
  | None => absoluteUrl (stripQuery href) baseUrl
  end.

Record BrowserConfig := {
  bDelay : Z;
  bDryRun : bool
}.

Record BrowserTotals := {
  bDownloaded : nat;
  bFailed : nat;
  bSkipped : nat
}.

(** The body of [for (let i = 0; i < pdfLinks.length; i++)]; [count] is
    [pdfLinks.length]. An invalid URL given to [new URL] ends the process. *)
Definition linkStep (cfg : BrowserConfig) (count : nat) (t : BrowserTotals)
    (indexed : nat * string) : M BrowserTotals :=
  let (i, pdfUrl) := indexed in
  setCurrent (Link pdfUrl) ;;
  match processUrl pdfUrl WCO_BASE_URL with
  | Some processedUrl =>
      if truthy processedUrl then
        if validUrl env processedUrl then
            let filename := basename env (pathname (parseUrl env processedUrl)) in
            let outputPath := filename in
            present <- fileExists outputPath ;;
            if present then
              log (AlreadyExists filename) ;;
              ret {| bDownloaded := bDownloaded t; bFailed := bFailed t;
                     bSkipped := S (bSkipped t) |}
            else if bDryRun cfg then
              log (DryRun filename) ;;
              ret {| bDownloaded := S (bDownloaded t); bFailed := bFailed t;
                     bSkipped := bSkipped t |}
            else
              ok <- downloadPDF processedUrl outputPath ;;
              let t' := if ok : bool
                        then {| bDownloaded := S (bDownloaded t); bFailed := bFailed t;
                                bSkipped := bSkipped t |}
                        else {| bDownloaded := bDownloaded t; bFailed := S (bFailed t);
                                bSkipped := bSkipped t |} in
              when ((S i <? count)%nat && (0 <? bDelay cfg)%Z)
                (r <- mathRandom env ;;
                 let randomVariation := Qfloor (r * inject_Z (bDelay cfg) * (1 # 2)) in
                 sleep (inject_Z (bDelay cfg) + inject_Z randomVariation)) ;;
              ret t'
        else exit 1
      else
        log (InvalidUrl pdfUrl) ;;
        ret {| bDownloaded := bDownloaded t; bFailed := S (bFailed t); bSkipped := bSkipped t |}
  | None =>
      log (InvalidUrl pdfUrl) ;;
      ret {| bDownloaded := bDownloaded t; bFailed := S (bFailed t); bSkipped := bSkipped t |}
  end.

Definition downloadLinks (cfg : BrowserConfig) (pdfLinks : list string) : M BrowserTotals :=
  forEach (linkStep cfg (List.length pdfLinks))
    (zip (seq 0 (List.length pdfLinks)) pdfLinks)
    {| bDownloaded := 0; bFailed := 0; bSkipped := 0 |}.

End WithBrowser.

(** ** Vocabulary for traces *)

(** The item a request event was issued for. *)
Definition tagOf (e : Event) : option Item :=
  match e with
  | EvHead item _ _ _ => Some item
  | EvGet item _ _ _ => Some item
  | _ => None
  end.

Definition isGet (e : Event) : bool :=
  match e with
  | EvGet _ _ _ _ => true
  | _ => false
  end.

(** A GET event whose response carries the given status code. *)
Definition answered (code : Z) (e : Event) : Prop :=
  match e with
  | EvGet _ _ _ (GetResponse r) => statusCode r = code
  | _ => False
  end.

(** Every request event of [evs] was issued for [item]. *)
Definition issuedFor (item : Item) (evs : list Event) : Prop :=
  Forall (fun e => forall i, tagOf e = Some i -> i = item) evs.

(** The shape of a trace: what kind of step each event is, and for whom. *)
Inductive Step :=
| SVisit
| SHead (item : Item)
| SGet (item : Item)
| SSleep
| SLog.

Definition stepOf (e : Event) : Step :=
  match e with
  | EvVisit _ _ _ => SVisit
  | EvHead item _ _ _ => SHead item
  | EvGet item _ _ _ => SGet item
  | EvSleep _ => SSleep
  | EvLog _ => SLog
  end.

Definition outline (evs : list Event) : list Step := stepOf <$> evs.

(** ** Vocabulary for runs *)

(** [m], started in [w], ends with [o] in [w'], having appended [evs] to
    the trace and kept the current item. *)
Definition Yields {A} (m : M A) (w : World) (o : Outcome A) (w' : World)
    (evs : list Event) : Prop :=
  m w = (o, w') /\ trace w' = trace w ++ evs /\ current w' = current w.

(** [m], started in [w], ends in a way that satisfies [Q]. *)
Definition Post {A} (m : M A) (w : World)
    (Q : Outcome A -> World -> list Event -> Prop) : Prop :=
  exists o w' evs, Yields m w o w' evs /\ Q o w' evs.

(** An operation that returns and leaves no event. *)
Definition Quiet {A} (m : M A) : Prop :=
  forall w, exists a w', Yields m w (Ret a) w' [].

(** What a run of [attemptDownload] leaves in the trace: GET requests for
    the current item and retry pauses; a GET answered 404 is the last event
    and settles the download as [Not Found]. With the budget of
    [downloadBudget] the recursion never runs dry. *)
Definition downloadPost (item : Item) (enough : Prop) (o : Outcome Settled)
    (evs : list Event) : Prop :=
  issuedFor item evs
  /\ (forall e, e ∈ evs -> answered 404 e ->
        o = Ret (failure 404 "Not Found") /\ exists pre, evs = pre ++ [e])
  /\ (enough -> exists s, o = Ret s).

(** The trace ends with a HEAD for [item] answered 200 whose [Content-Length]
  equals the size of the local file [path] of [dir]. *)
Definition sameSizeReported (item : Item) (dir : gmap string string) (path : string)
  (evs : list Event) : Prop :=
exists u h r content,
  last evs = Some (EvHead item u h (ProbeResponse r))
  /\ statusCode r = 200%Z
  /\ dir !! path = Some content
  /\ remoteSizeOf r = Some (Z.of_nat (String.length content)).

(** What [checkFile] does: HEAD requests only, files and cookies untouched,
    and the answer [false] exactly when the last HEAD reports the local
    size. *)
Definition checkPost (w : World) (path : string) (enough : Prop) (o : Outcome bool)
    (w' : World) (evs : list Event) : Prop :=
  issuedFor (current w) evs
  /\ Forall (fun e => isGet e = false) evs
  /\ files w' = files w
  /\ cookieJar w' = cookieJar w
  /\ (enough -> exists changed, o = Ret changed
                /\ (changed = false <-> sameSizeReported (current w) (files w) path evs)).

(** The console line that reports a missing item. *)
Definition notFoundReport (cfg : Config) (item : Item) : Report :=
match item with
| Additional filename =>
    NotFound filename (buildAdditionalUrl (edition cfg) filename)
| Grid chapter heading =>
    NotFound (gridFilename (edition cfg) chapter heading)
             (buildUrl (edition cfg) chapter heading)
| WarmUp => NotFound "" ""
| Link url => NotFound "" url
end.

(** A GET answered 404 stops the process: exit code 1, and nothing but the
  console report follows the request. *)
Definition stopsAt404 {A} (cfg : Config) (o : Outcome A) (evs : list Event) : Prop :=
forall e, e ∈ evs -> answered 404 e ->
  o = Exit 1
  /\ exists pre item, tagOf e = Some item
                      /\ evs = pre ++ [e; EvLog (notFoundReport cfg item)].

(** [m], started in [w], ends with [o] in [w'] having appended [evs]. *)
Definition Emits {A} (m : M A) (w : World) (o : Outcome A) (w' : World)
    (evs : list Event) : Prop :=
  m w = (o, w') /\ trace w' = trace w ++ evs.

(** One item: requests for the current item only; a GET answered 404 is
    followed by the report alone and the process exits with code 1. *)
Definition itemPost {A} (item : Item) (filename url : string) (o : Outcome A)
    (evs : list Event) : Prop :=
  issuedFor item evs
  /\ (forall e, e ∈ evs -> answered 404 e ->
        o = Exit 1 /\ exists pre, evs = pre ++ [e; EvLog (NotFound filename url)])
  /\ o <> Stuck.

(** What every step of a loop guarantees, and so the loop itself: the
    404 rule, no exhausted budget, and [P] of every event. *)
Definition StepSpec {A} (cfg : Config) (P : Event -> Prop) (m : M A) (w : World) : Prop :=
  exists o w' evs,
    Emits m w o w' evs /\ stopsAt404 cfg o evs /\ o <> Stuck /\ Forall P evs.

(** Every request event is issued for [item]. *)
Definition requestsFor (item : Item) (e : Event) : Prop :=
  forall i, tagOf e = Some i -> i = item.

Definition forAdditional (e : Event) : Prop :=
  forall i, tagOf e = Some i -> exists filename, i = Additional filename.

Definition forGrid (e : Event) : Prop :=
  forall i, tagOf e = Some i -> exists chapter heading, i = Grid chapter heading.

Definition untagged (e : Event) : Prop := tagOf e = None.

(** A GET result that [attemptDownload] answers with a retry while attempts
  remain: a request error, or a response whose status is neither a redirect
  code, nor 404, nor 200. *)
Definition retryable (res : GetResult) : bool :=
match res with
| GetError _ => true
| GetResponse r =>
    negb (isRedirect (statusCode r)) && negb (statusCode r =? 404)%Z
    && negb (statusCode r =? 200)%Z
end.

(** How the download settles on a retryable result once attempts are used up. *)
Definition givenUp (res : GetResult) : Settled :=
match res with
| GetError message => Rejected message
| GetResponse r => failure (statusCode r) ("HTTP " +:+ JsString.ofZ (statusCode r))
end.

(** The clean-up that precedes giving up: for a request error, and for a
  status of 500 or more. *)
Definition cleansUp (res : GetResult) : bool :=
match res with
| GetError _ => true
| GetResponse r => (500 <=? statusCode r)%Z
end.

(** The referer of an attempt: [previousUrl || refererUrl]. *)
Definition refererOf (previousUrl refererUrl : string) : string :=
if truthy previousUrl then previousUrl else refererUrl.


(** ** Vocabulary for final states *)

(** [m], started in [w], ends with an outcome and in a world that satisfy
    [R]. *)
Definition After {A} (m : M A) (w : World) (R : Outcome A -> World -> Prop) : Prop :=
  R (m w).1 (m w).2.

(** The number of GET requests among the events. *)
Definition getCount (evs : list Event) : nat := List.length (List.filter isGet evs).


(** A response that reports blocking: status 403 or 429. *)
Definition blocked (r : Response) : Prop :=
  statusCode r = 403%Z \/ statusCode r = 429%Z.

(** How [downloadFile] reports a status it gives up on. *)
Definition httpFailure (code : Z) : Settled :=
  failure code ("HTTP " +:+ JsString.ofZ code).



(** ** Vocabulary for counters, dry runs and downloads *)

(** The counters of the summary add up, and [stats.failed] holds one entry
    per counted failure. *)
Definition balanced (t : Totals) : Prop :=
  totalAttempted t = totalDownloaded t + totalFailed t + totalSkipped t
  /\ List.length (statsFailed t) = totalFailed t
  /\ List.length (statsDownloaded t) <= totalDownloaded t.

Definition keepsBalance (o : Outcome Totals) (w : World) : Prop :=
  forall t, o = Ret t -> balanced t.

(** The file names a run goes through, in order: the additional documents,
    then every heading code of every chapter. *)
Definition plannedNames (cfg : Config) (additionalPdfs : list string) : list string :=
  (additionalFilename (edition cfg) <$> additionalPdfs)
  ++ concat ((fun chapter => gridFilename (edition cfg) chapter <$> generateHeadings chapter)
               <$> chapters cfg).

(** [w'] differs from [w] by dry-run reports for [names] (and by the item
    being processed). *)
Definition dryRunOnly (w w' : World) (names : list string) : Prop :=
  trace w' = trace w ++ ((fun name => EvLog (DryRun name)) <$> names)
  /\ files w' = files w /\ cookieJar w' = cookieJar w
  /\ requests w' = requests w /\ draws w' = draws w.

(** [t'] is [t] with [n] more items counted as attempted and as downloaded. *)
Definition countedDry (t t' : Totals) (n : nat) : Prop :=
  totalAttempted t' = totalAttempted t + n
  /\ totalDownloaded t' = totalDownloaded t + n
  /\ totalFailed t' = totalFailed t /\ totalSkipped t' = totalSkipped t
  /\ statsDownloaded t' = statsDownloaded t /\ statsFailed t' = statsFailed t.

(** A loop step that only reports the names it would download. *)
Definition dryStep {A} (names : A -> list string) (step : Totals -> A -> M Totals) : Prop :=
  forall t x w, exists t' w',
    step t x w = (Ret t', w') /\ dryRunOnly w w' (names x)
    /\ countedDry t t' (List.length (names x)).





(** ** Vocabulary for the resume cursor *)

(** An edition text that the pattern of [findResumePoint] accepts: four
    decimal digits ([\d{4}]). *)
Definition isYear (s : string) : bool :=
  match s with
  | String y1 (String y2 (String y3 (String y4 ""))) =>
      forallb JsString.isDigit [y1; y2; y3; y4]
  | _ => false
  end.

(** A request lies beyond the cursor when it is for no grid item, or for a
    heading code of a later chapter, or for a later heading of the chapter
    of the cursor. *)
Definition beyondCursor (rp : ResumePoint) (e : Event) : Prop :=
  forall chapter heading, tagOf e = Some (Grid chapter heading) ->
    rpChapter rp <= chapter
    /\ exists n, 1 <= n <= 99 /\ heading = headingCode n
                 /\ (chapter = rpChapter rp -> rpHeading rp < n).

(** The order of coordinates: by chapter, then by heading. *)
Definition coordinateLe (a b : ResumePoint) : Prop :=
  rpChapter a < rpChapter b \/ (rpChapter a = rpChapter b /\ rpHeading a <= rpHeading b).

(** ** Scenarios: concrete servers, directories and configurations *)

Module Scenario.

(** A response with a status code and a body, and no header of interest. *)
Definition plain (code : Z) (content : string) : Response :=
{| statusCode := code; location := None; setCookie := None; contentLength := None;
   body := content |}.

(** An environment from a GET and a HEAD oracle: the warm-up visit fails,
  [Math.random()] yields 0, and the URL helpers are the simplest ones. *)
Definition server (get : nat -> string -> GetResult) (head : nat -> string -> ProbeResult)
  : Env :=
{| httpGet := get;
   httpHead := head;
   httpVisit := fun _ _ => ProbeError;
   random := fun _ => 0%Q;
   validUrl := fun _ => true;
   parseUrl := fun _ => {| protocol := "https:"; host := "www.wcoomd.org"; pathname := "/" |};
   decodeURIComponent := fun s => Some s;
   resolveUrl := fun rel base => Some (base +:+ rel);
   basename := fun p => p |}.

(** Edition 2022, chapter 1 only, no pause, three attempts, change detection
  on: the defaults of the script but for the chapter range and the delay. *)
Definition chapterOne : Config :=
{| edition := "2022"; chapters := [1]; delay := 0; delayVariation := 0; retries := 3;
   resume := false; dryRun := false; checkExisting := true; skipExisting := false |}.

Definition introductionUrl : string := buildAdditionalUrl "2022" "introduction_2022e.pdf".

(** The introduction exists; no chapter/heading file does. *)
Definition gridAbsent : Env :=
server (fun _ u => if String.eqb u introductionUrl
                   then GetResponse (plain 200 "%PDF-1.4 introduction")
                   else GetResponse (plain 404 "Not Found"))
       (fun _ _ => ProbeError).

(** Nothing exists on the server. *)
Definition allAbsent : Env :=
server (fun _ _ => GetResponse (plain 404 "Not Found")) (fun _ _ => ProbeError).

(** The GET that [allAbsent] answers for the introduction. *)
Definition introductionGet : Event :=
EvGet (Additional "introduction_2022e.pdf") introductionUrl
  {| userAgent := nth 0 CHROME_USER_AGENTS ""; referer := Some (mainPageUrl "2022");
     cookie := None |}
  (GetResponse (plain 404 "Not Found")).

(** Every GET is answered 200 with an HTML page. *)
Definition htmlPage : string := "<html><body>Access denied</body></html>".

Definition allHtml : Env :=
server (fun _ _ => GetResponse (plain 200 htmlPage)) (fun _ _ => ProbeError).

(** Every GET is answered 403. *)
Definition allForbidden : Env :=
server (fun _ _ => GetResponse (plain 403 "Forbidden")) (fun _ _ => ProbeError).

(** The first GET is answered 403, every later one 404. *)
Definition forbiddenThenAbsent : Env :=
server (fun n _ => if (n =? 0)%nat then GetResponse (plain 403 "Forbidden")
                   else GetResponse (plain 404 "Not Found"))
       (fun _ _ => ProbeError).



(** Every GET is answered with a small PDF; a HEAD reports its size. *)
Definition samplePdf : string := "%PDF-1.4 sample".

Definition sized : Response :=
{| statusCode := 200; location := None; setCookie := None;
   contentLength := Some "15"; body := "" |}.

Definition allPresent : Env :=
server (fun _ _ => GetResponse (plain 200 samplePdf)) (fun _ _ => ProbeResponse sized).

(** Headings 01 to 05 of chapter 1, as a previous run left them. *)
Definition fiveHeadings : gmap string string :=
list_to_map ((fun h => (gridFilename "2022" 1 h, samplePdf)) <$> ["01"; "02"; "03"; "04"; "05"]).

(** The same directory after the additional documents were fetched too. *)
Definition fiveHeadingsAndIntroduction : gmap string string :=
<["introduction_2022e.pdf" := samplePdf]> fiveHeadings.

Definition resuming : Config :=
{| edition := "2022"; chapters := [1]; delay := 0; delayVariation := 0; retries := 3;
   resume := true; dryRun := false; checkExisting := true; skipExisting := false |}.


(** Only heading 01 of chapter 1 is on disk. *)
Definition oneHeading : gmap string string := {[ gridFilename "2022" 1 "01" := samplePdf ]}.

(** A HEAD is answered 200 without [Content-Length]. *)
Definition noLength : Env :=
server (fun _ _ => GetResponse (plain 200 samplePdf))
       (fun _ _ => ProbeResponse (plain 200 "")).

(** An empty file under the name of heading 01, as a run against
  [allForbidden] leaves it. *)
Definition emptyStub : gmap string string := {[ gridFilename "2022" 1 "01" := "" ]}.

(** A response whose only [Set-Cookie] line has an empty name=value part. *)
Definition attributesOnly : Response :=
{| statusCode := 200; location := None; setCookie := Some ["; Path=/; HttpOnly"];
   contentLength := None; body := "" |}.

(** A response that sets two cookies, answered to every GET. *)
Definition twoCookies : Response :=
{| statusCode := 200; location := None;
   setCookie := Some ["sid=42; Path=/; HttpOnly"; " lang=en "];
   contentLength := None; body := samplePdf |}.

Definition cookieServer : Env :=
server (fun _ _ => GetResponse twoCookies) (fun _ _ => ProbeError).

(** A world whose jar holds a cookie of the warm-up visit. *)
Definition warmedUp : World :=
{| cookieJar := "ASP.NET_SessionId=abc"; files := ∅; trace := []; requests := 1; draws := 1;
   current := WarmUp |}.

(** A HEAD is answered 200 with an empty [Content-Length] value. *)
Definition emptyLength : Env :=
server (fun _ _ => GetResponse (plain 200 samplePdf))
       (fun _ _ => ProbeResponse {| statusCode := 200; location := None; setCookie := None;
                                    contentLength := Some ""; body := "" |}).




End Scenario.

(** ** Further scenarios *)

Module Cases.

(** A dry run over chapters 1 and 2 of edition 2022. *)
Definition dry : Config :=
{| edition := "2022"; chapters := [1; 2]; delay := 5000; delayVariation := 5000; retries := 3;
   resume := false; dryRun := true; checkExisting := true; skipExisting := false |}.



End Cases.

(** * Properties *)

(** ** Decimal numerals *)

Section Decimal.

Lemma parseDigits_digit (c : ascii) (t : string) (acc : Z) :
  JsString.isDigit c = true ->
  JsString.parseDigits acc (String c t)
  = JsString.parseDigits (10 * acc + JsString.digitValue c) t.
Proof. intros H. cbn [JsString.parseDigits]. by rewrite H. Qed.

Lemma parseDigits_string_of_uint (d : Decimal.uint) (acc : Z) :
  (0 <= acc)%Z ->
  JsString.parseDigits acc (NilEmpty.string_of_uint d)
  = Z.of_nat (Nat.of_uint_acc d (Z.to_nat acc)).
Proof.
  revert acc.
  induction d as [| d IH | d IH | d IH | d IH | d IH | d IH | d IH | d IH | d IH | d IH];
    intros acc Hacc; cbn [NilEmpty.string_of_uint Nat.of_uint_acc].
  { cbn [JsString.parseDigits]. lia. }
  all: rewrite parseDigits_digit by reflexivity.
  all: match goal with
       | |- context [JsString.digitValue ?c] =>
           let v := eval vm_compute in (JsString.digitValue c) in
           change (JsString.digitValue c) with v
       end.
  all: rewrite IH by lia; rewrite Nat.tail_mul_spec; do 2 f_equal; lia.
Qed.

Lemma parseInt_string_of_uint (d : Decimal.uint) :
  JsString.parseInt (NilZero.string_of_uint d) = Some (Z.of_nat (Nat.of_uint d)).
Proof.
  unfold Nat.of_uint. change (Nat.of_uint_acc d 0) with (Nat.of_uint_acc d (Z.to_nat 0)).
  rewrite <- (parseDigits_string_of_uint d 0) by lia.
  destruct d; reflexivity.
Qed.

(** [parseInt(String(n), 10)] is [n]. *)
Lemma parseInt_ofNat (n : nat) : JsString.parseInt (JsString.ofNat n) = Some (Z.of_nat n).
Proof.
  unfold JsString.ofNat. by rewrite parseInt_string_of_uint, DecimalNat.Unsigned.of_to.
Qed.

End Decimal.

(** ** Naming *)

Section Naming.

Lemma padStart_twoDigits (n : nat) :
  n < 100 -> JsString.padStart 2 "0" (JsString.ofNat n) = twoDigits n.
Proof.
  intros Hn.
  assert (Hall : forallb (fun k => String.eqb (JsString.padStart 2 "0" (JsString.ofNat k))
                                     (twoDigits k)) (seq 0 100) = true)
    by (vm_compute; reflexivity).
  rewrite forallb_forall in Hall.
  apply String.eqb_eq, Hall, in_seq. lia.
Qed.

Lemma digitAscii_inj (a b : nat) : a < 10 -> b < 10 -> digitAscii a = digitAscii b -> a = b.
Proof.
  unfold digitAscii. intros Ha Hb Heq.
  apply (f_equal nat_of_ascii) in Heq.
  rewrite !nat_ascii_embedding in Heq by lia. lia.
Qed.

Lemma twoDigits_inj (a b : nat) : a < 100 -> b < 100 -> twoDigits a = twoDigits b -> a = b.
Proof.
  unfold twoDigits. intros Ha Hb Heq.
  pose proof (Nat.div_mod_eq a 10) as Ea. pose proof (Nat.div_mod_eq b 10) as Eb.
  assert (a / 10 < 10) by (apply Nat.Div0.div_lt_upper_bound; lia).
  assert (b / 10 < 10) by (apply Nat.Div0.div_lt_upper_bound; lia).
  assert (a mod 10 < 10) by (apply Nat.mod_upper_bound; lia).
  assert (b mod 10 < 10) by (apply Nat.mod_upper_bound; lia).
  revert Heq Ea Eb.
  generalize dependent (a / 10). generalize dependent (a mod 10).
  generalize dependent (b / 10). generalize dependent (b mod 10).
  intros bl Hbl bh Hbh al Hal ah Hah Heq Ea Eb.
  injection Heq as Hhi Hlo.
  apply digitAscii_inj in Hhi; [| lia ..].
  apply digitAscii_inj in Hlo; [| lia ..]. lia.
Qed.

Lemma generateHeadings_elem (chapter : nat) (h : string) :
  h ∈ generateHeadings chapter <-> exists n, 1 <= n <= 99 /\ h = twoDigits n.
Proof.
  unfold generateHeadings. rewrite list_elem_of_fmap. split.
  - intros (n & -> & Hin). apply elem_of_seq in Hin. exists n. split; [lia |].
    apply padStart_twoDigits. lia.
  - intros (n & Hn & ->). exists n. split.
    + symmetry. apply padStart_twoDigits. lia.
    + apply elem_of_seq. lia.
Qed.

Lemma gridFilename_twoDigits (edition : string) (chapter n : nat) :
  chapter < 100 ->
  gridFilename edition chapter (twoDigits n)
  = twoDigits chapter +:+ twoDigits n +:+ "_" +:+ edition +:+ "e.pdf".
Proof. intros Hc. unfold gridFilename. by rewrite padStart_twoDigits. Qed.

End Naming.

(** C4. The file name of a grid item is a function of the edition, the
    chapter and the heading code. For a chapter in 1..97 and a heading code
    of [generateHeadings] (the codes 01 to 99) it is the chapter on two
    digits, the heading on two digits, an underscore, the edition and
    [e.pdf]; for edition 2022, chapter 1 and heading 01 it is
    [0101_2022e.pdf]; and two such coordinates with the same file name are
    the same coordinate. *)
Theorem C4_filename_deterministic_injective (edition : string) (c1 c2 : nat) (h1 h2 : string) :
  1 <= c1 <= 97 -> 1 <= c2 <= 97 ->
  h1 ∈ generateHeadings c1 -> h2 ∈ generateHeadings c2 ->
  (exists n1, 1 <= n1 <= 99 /\ h1 = twoDigits n1
     /\ gridFilename edition c1 h1
        = twoDigits c1 +:+ twoDigits n1 +:+ "_" +:+ edition +:+ "e.pdf")
  /\ gridFilename "2022" 1 "01" = "0101_2022e.pdf"
  /\ (gridFilename edition c1 h1 = gridFilename edition c2 h2 -> c1 = c2 /\ h1 = h2).
Proof.
  intros Hc1 Hc2 Hh1 Hh2.
  apply generateHeadings_elem in Hh1 as (n1 & Hn1 & ->).
  apply generateHeadings_elem in Hh2 as (n2 & Hn2 & ->).
  split; [| split].
  - exists n1. split; [done |]. split; [done |]. apply gridFilename_twoDigits. lia.
  - reflexivity.
  - rewrite !gridFilename_twoDigits by lia. intros Heq.
    assert (Hsplit : forall a b s t, twoDigits a +:+ s = twoDigits b +:+ t ->
                                     twoDigits a = twoDigits b /\ s = t).
    { intros a b s t. unfold twoDigits.
      generalize (digitAscii (a / 10)) (digitAscii (a mod 10))
                 (digitAscii (b / 10)) (digitAscii (b mod 10)).
      intros x1 x2 y1 y2 E. cbv [String.app String.append] in E. by injection E as -> -> ->. }
    apply Hsplit in Heq as [Hc Heq]. apply Hsplit in Heq as [Hn _].
    apply twoDigits_inj in Hc; [| lia ..]. apply twoDigits_inj in Hn; [| lia ..].
    by subst.
Qed.

Lemma C4_filename_witness :
  (exists n1, 1 <= n1 <= 99 /\ "01" = twoDigits n1
     /\ gridFilename "2022" 1 "01"
        = twoDigits 1 +:+ twoDigits n1 +:+ "_" +:+ "2022" +:+ "e.pdf")
  /\ gridFilename "2022" 1 "01" = "0101_2022e.pdf"
  /\ (gridFilename "2022" 1 "01" = gridFilename "2022" 1 "01" -> 1 = 1 /\ "01" = "01").
Proof.
  apply (C4_filename_deterministic_injective "2022" 1 1 "01" "01");
    try lia; apply list_elem_of_In; vm_compute; left; reflexivity.
Defined.

(** ** Reasoning about runs *)

Section Runs.

Lemma yields_run {A} (m : M A) (w : World) :
  (exists evs, trace (m w).2 = trace w ++ evs /\ current (m w).2 = current w) ->
  exists o w' evs, Yields m w o w' evs.
Proof.
  intros (evs & Ht & Hc). exists (m w).1, (m w).2, evs.
  split; [by destruct (m w) | done].
Qed.

Lemma yields_ret {A} (a : A) (w : World) : Yields (ret a) w (Ret a) w [].
Proof. unfold Yields, ret. by rewrite app_nil_r. Qed.

Lemma yields_bind_ret {A B} (m : M A) (f : A -> M B) w a w1 evs1 o w2 evs2 :
  Yields m w (Ret a) w1 evs1 -> Yields (f a) w1 o w2 evs2 ->
  Yields (bind m f) w o w2 (evs1 ++ evs2).
Proof.
  intros (Em & Ht1 & Hc1) (Ef & Ht2 & Hc2). unfold Yields, bind. rewrite Em.
  split; [done |]. split; [by rewrite Ht2, Ht1, app_assoc | congruence].
Qed.

Lemma yields_bind_exit {A B} (m : M A) (f : A -> M B) w code w1 evs1 :
  Yields m w (Exit code) w1 evs1 -> Yields (bind m f) w (Exit code) w1 evs1.
Proof. intros (Em & Ht1 & Hc1). unfold Yields, bind. by rewrite Em. Qed.

Lemma yields_bind_stuck {A B} (m : M A) (f : A -> M B) w w1 evs1 :
  Yields m w Stuck w1 evs1 -> Yields (bind m f) w Stuck w1 evs1.
Proof. intros (Em & Ht1 & Hc1). unfold Yields, bind. by rewrite Em. Qed.


Lemma post_ret {A} (a : A) w (Q : Outcome A -> World -> list Event -> Prop) :
  Q (Ret a) w [] -> Post (ret a) w Q.
Proof. intros HQ. exists (Ret a), w, []. split; [apply yields_ret | done]. Qed.

Lemma post_exit {A} code w (Q : Outcome A -> World -> list Event -> Prop) :
  Q (Exit code) w [] -> Post (exit code) w Q.
Proof.
  intros HQ. exists (Exit code), w, []. split; [| done].
  unfold Yields, exit. by rewrite app_nil_r.
Qed.

Lemma post_stuck {A} w (Q : Outcome A -> World -> list Event -> Prop) :
  Q Stuck w [] -> Post stuck w Q.
Proof.
  intros HQ. exists Stuck, w, []. split; [| done].
  unfold Yields, stuck. by rewrite app_nil_r.
Qed.

Lemma post_bind {A B} (m : M A) (f : A -> M B) w
    (Q : Outcome B -> World -> list Event -> Prop) :
  Post m w (fun o w1 evs1 =>
              current w1 = current w ->
              match o with
              | Ret a => Post (f a) w1 (fun o2 w2 evs2 => Q o2 w2 (evs1 ++ evs2))
              | Exit code => Q (Exit code) w1 evs1
              | Stuck => Q Stuck w1 evs1
              end) ->
  Post (bind m f) w Q.
Proof.
  intros (o & w1 & evs1 & H1 & HQ). specialize (HQ (proj2 (proj2 H1))).
  destruct o as [a | code |].
  - destruct HQ as (o2 & w2 & evs2 & H2 & HQ). exists o2, w2, (evs1 ++ evs2).
    split; [apply (yields_bind_ret _ _ _ _ _ _ _ _ _ H1 H2) | done].
  - exists (Exit code), w1, evs1. split; [by apply yields_bind_exit | done].
  - exists Stuck, w1, evs1. split; [by apply yields_bind_stuck | done].
Qed.

Lemma post_conseq {A} (m : M A) w (Q Q' : Outcome A -> World -> list Event -> Prop) :
  Post m w Q -> (forall o w' evs, Q o w' evs -> Q' o w' evs) -> Post m w Q'.
Proof. intros (o & w' & evs & H & HQ) Himp. exists o, w', evs. eauto. Qed.

Lemma post_yields {A} (m : M A) w o w' evs
    (Q : Outcome A -> World -> list Event -> Prop) :
  Yields m w o w' evs -> Q o w' evs -> Post m w Q.
Proof. intros H HQ. exists o, w', evs. eauto. Qed.


Lemma quiet_ret {A} (a : A) : Quiet (ret a).
Proof. intros w. exists a, w. apply yields_ret. Qed.

Lemma quiet_bind {A B} (m : M A) (f : A -> M B) :
  Quiet m -> (forall a, Quiet (f a)) -> Quiet (bind m f).
Proof.
  intros Hm Hf w. destruct (Hm w) as (a & w1 & H1). destruct (Hf a w1) as (b & w2 & H2).
  exists b, w2. apply (yields_bind_ret _ _ _ _ _ _ _ _ _ H1 H2).
Qed.

Lemma post_quiet {A B} (m : M A) (f : A -> M B) w
    (Q : Outcome B -> World -> list Event -> Prop) :
  Quiet m ->
  (forall a w1, current w1 = current w -> Post (f a) w1 Q) ->
  Post (bind m f) w Q.
Proof.
  intros Hm Hf. apply post_bind. destruct (Hm w) as (a & w1 & H1).
  eapply post_yields; [exact H1 |]. intros Hc. by apply Hf.
Qed.

Lemma quiet_when (b : bool) (m : M unit) : Quiet m -> Quiet (when b m).
Proof. destruct b; [done | intros _; apply quiet_ret]. Qed.

Lemma quiet_getFiles : Quiet getFiles.
Proof. intros w. exists (files w), w. apply yields_ret. Qed.

Lemma quiet_getCookieJar : Quiet getCookieJar.
Proof. intros w. exists (cookieJar w), w. apply yields_ret. Qed.

Lemma quiet_getCurrent : Quiet getCurrent.
Proof. intros w. exists (current w), w. apply yields_ret. Qed.

Lemma quiet_setFiles dir : Quiet (setFiles dir).
Proof. intros w. eexists tt, _. unfold Yields, setFiles. simpl. by rewrite app_nil_r. Qed.

Lemma quiet_setCookieJar jar : Quiet (setCookieJar jar).
Proof. intros w. eexists tt, _. unfold Yields, setCookieJar. simpl. by rewrite app_nil_r. Qed.

Lemma quiet_tickRequests : Quiet tickRequests.
Proof. intros w. eexists _, _. unfold Yields, tickRequests. simpl. by rewrite app_nil_r. Qed.

Lemma quiet_tickDraws : Quiet tickDraws.
Proof. intros w. eexists _, _. unfold Yields, tickDraws. simpl. by rewrite app_nil_r. Qed.

End Runs.

Create HintDb quiet.

#[local] Hint Resolve quiet_ret quiet_getFiles quiet_getCookieJar quiet_getCurrent quiet_setFiles
  quiet_setCookieJar quiet_tickRequests quiet_tickDraws : quiet.

Ltac quiet :=
  repeat first
    [ apply quiet_bind; [| intros ?]
    | apply quiet_when
    | progress eauto with quiet ].

Section QuietOperations.

Variable env : Env.

Lemma quiet_createWriteStream p : Quiet (createWriteStream p).
Proof. unfold createWriteStream. quiet. Qed.

Lemma quiet_writeFile p c : Quiet (writeFile p c).
Proof. unfold writeFile. quiet. Qed.

Lemma quiet_unlink p : Quiet (unlink p).
Proof. unfold unlink. quiet. Qed.

Lemma quiet_unlinkIfSmall p : Quiet (unlinkIfSmall p).
Proof. unfold unlinkIfSmall. quiet. destruct (_ !! _); quiet. Qed.

Lemma quiet_fileExists p : Quiet (fileExists p).
Proof. unfold fileExists. quiet. Qed.


Lemma quiet_readdir : Quiet readdir.
Proof. unfold readdir. quiet. Qed.

Lemma quiet_mathRandom : Quiet (mathRandom env).
Proof. unfold mathRandom. quiet. Qed.

Lemma quiet_getBrowserHeaders ref : Quiet (getBrowserHeaders env ref).
Proof. unfold getBrowserHeaders, getRandomUserAgent, mathRandom. quiet. Qed.

Lemma quiet_extractCookies r : Quiet (extractCookies r).
Proof. unfold extractCookies. destruct (setCookie r); quiet. Qed.

Lemma quiet_getRandomDelay b v : Quiet (getRandomDelay env b v).
Proof. unfold getRandomDelay, mathRandom. quiet. Qed.

End QuietOperations.

(** ** Reasoning about final states *)

Section FinalStates.

Variable env : Env.

Lemma after_ret {A} (a : A) w (R : Outcome A -> World -> Prop) :
  R (Ret a) w -> After (ret a) w R.
Proof. done. Qed.

Lemma after_bind {A B} (m : M A) (f : A -> M B) w
    (R1 : Outcome A -> World -> Prop) (R : Outcome B -> World -> Prop) :
  After m w R1 ->
  (forall a w1, R1 (Ret a) w1 -> After (f a) w1 R) ->
  (forall code w1, R1 (Exit code) w1 -> R (Exit code) w1) ->
  (forall w1, R1 Stuck w1 -> R Stuck w1) ->
  After (bind m f) w R.
Proof.
  unfold After, bind. intros H1 Hret Hexit Hstuck.
  destruct (m w) as [[a | code |] w1]; simpl in *; eauto.
Qed.

Lemma after_conseq {A} (m : M A) w (R R' : Outcome A -> World -> Prop) :
  After m w R -> (forall o w', R o w' -> R' o w') -> After m w R'.
Proof. unfold After. eauto. Qed.

Lemma after_eq {A} (m m' : M A) w (R : Outcome A -> World -> Prop) :
  m w = m' w -> After m' w R -> After m w R.
Proof. unfold After. by intros ->. Qed.

(** A first operation whose result is known. *)
Lemma after_step {A B} (m : M A) (f : A -> M B) w a w1 (R : Outcome B -> World -> Prop) :
  m w = (Ret a, w1) -> After (f a) w1 R -> After (bind m f) w R.
Proof. unfold After, bind. by intros ->. Qed.

Lemma after_next {A B} (m : M A) (f : A -> M B) w a (R : Outcome B -> World -> Prop) :
  (m w).1 = Ret a -> After (f a) (m w).2 R -> After (bind m f) w R.
Proof. unfold After, bind. destruct (m w) as [o w1]. simpl. by intros ->. Qed.

(** A first operation that returns and leaves no event. *)
Lemma after_quiet {A B} (m : M A) (f : A -> M B) w (R : Outcome B -> World -> Prop) :
  Quiet m -> (forall a w1, After (f a) w1 R) -> After (bind m f) w R.
Proof.
  intros Hq Hf. destruct (Hq w) as (a & w1 & (E & _)). eapply after_step; [exact E |].
  apply Hf.
Qed.

(** A loop keeps what each of its steps keeps. *)
Lemma after_forEach {A S} (I : S -> World -> Prop) (R : Outcome S -> World -> Prop)
    (step : S -> A -> M S) xs s w :
  (forall s x w, I s w ->
     After (step s x) w (fun o w' => match o with Ret s' => I s' w' | _ => R o w' end)) ->
  (forall s w, I s w -> R (Ret s) w) ->
  I s w -> After (forEach step xs s) w R.
Proof.
  intros Hstep Hend. revert s w. induction xs as [| x xs IH]; intros s w HI; simpl.
  - apply after_ret. by apply Hend.
  - eapply after_bind; [by apply Hstep | | |]; simpl; eauto.
Qed.

(** What [Post] says of the final state. *)
Lemma post_after {A} (m : M A) w (Q : Outcome A -> World -> list Event -> Prop) :
  Post m w Q -> After m w (fun o w' => exists evs, trace w' = trace w ++ evs /\ Q o w' evs).
Proof. intros (o & w' & evs & (E & T & _) & HQ). unfold After. rewrite E. simpl. eauto. Qed.


Lemma getCount_get item url h res : getCount [EvGet item url h res] = 1.
Proof. reflexivity. Qed.

(** One GET: the answer of the oracle at the current request count is
    returned and recorded; no file is touched. *)
Lemma sessionGet_run url ref w :
  exists h jar,
    sessionGet env url ref w
    = (Ret (httpGet env (requests w) url),
       {| cookieJar := jar; files := files w;
          trace := trace w ++ [EvGet (current w) url h (httpGet env (requests w) url)];
          requests := S (requests w); draws := S (draws w); current := current w |}).
Proof.
  unfold sessionGet, getBrowserHeaders, getRandomUserAgent, mathRandom, bind, tickDraws,
    getCookieJar, getCurrent, tickRequests, emit, ret. simpl.
  destruct (httpGet env (requests w) url) as [r | msg]; [| by eexists _, _].
  unfold extractCookies, when, setCookieJar, ret.
  destruct (setCookie r) as [hs |]; [| by eexists _, _].
  destruct (0 <? _)%nat; by eexists _, _.
Qed.


(** The first request of an attempt and what follows it. *)
Lemma attempt_begins {A} out url ref (K : M A) w (R : Outcome A -> World -> Prop) :
  (forall h w1, trace w1 = trace w ++ [EvGet (current w) url h (httpGet env (requests w) url)] ->
                current w1 = current w ->
                After K w1 R) ->
  After (createWriteStream out ;; _ <- sessionGet env url ref ;; K) w R.
Proof.
  intros HK. eapply after_step; [reflexivity |].
  match goal with |- After _ ?w0 _ => set (w1 := w0) end.
  destruct (sessionGet_run url ref w1) as (h & jar & E).
  eapply after_step; [exact E |]. apply (HK h); reflexivity.
Qed.

End FinalStates.

(** ** The fetcher [downloadFile] *)

Section Download.

Variable env : Env.

Lemma issuedFor_nil item : issuedFor item [].
Proof. constructor. Qed.

Lemma issuedFor_app item evs1 evs2 :
  issuedFor item evs1 -> issuedFor item evs2 -> issuedFor item (evs1 ++ evs2).
Proof. apply Forall_app_2. Qed.

Lemma issuedFor_untagged item e : tagOf e = None -> issuedFor item [e].
Proof. intros H. constructor; [| constructor]. intros i Hi. congruence. Qed.

Lemma issuedFor_tagged item e : tagOf e = Some item -> issuedFor item [e].
Proof. intros H. constructor; [| constructor]. intros i Hi. congruence. Qed.

Lemma yields_emit e w : exists w', Yields (emit e) w (Ret tt) w' [e].
Proof. eexists. unfold Yields, emit. simpl. done. Qed.

Lemma post_emit e w (Q : Outcome unit -> World -> list Event -> Prop) :
  (forall w', current w' = current w -> files w' = files w -> cookieJar w' = cookieJar w ->
              Q (Ret tt) w' [e]) ->
  Post (emit e) w Q.
Proof.
  intros HQ. eapply post_yields; [| apply HQ].
  - unfold Yields, emit. simpl. done.
  - done.
  - done.
  - done.
Qed.

(** One GET: the oracle's answer is returned and recorded. *)
Lemma yields_sessionGet url ref w :
  exists n h w',
    Yields (sessionGet env url ref) w (Ret (httpGet env n url)) w'
      [EvGet (current w) url h (httpGet env n url)].
Proof.
  exists (requests w). unfold Yields.
  unfold sessionGet, getBrowserHeaders, getRandomUserAgent, mathRandom, bind, tickDraws,
    getCookieJar, getCurrent, tickRequests, emit, ret. simpl.
  destruct (httpGet env (requests w) url) as [r | msg]; [| by eexists _, _].
  unfold extractCookies, when, setCookieJar, ret.
  destruct (setCookie r) as [hs |]; [| by eexists _, _].
  destruct (0 <? _)%nat; by eexists _, _.
Qed.

Lemma post_sessionGet url ref w (Q : Outcome GetResult -> World -> list Event -> Prop) :
  (forall n h w', current w' = current w ->
      Q (Ret (httpGet env n url)) w' [EvGet (current w) url h (httpGet env n url)]) ->
  Post (sessionGet env url ref) w Q.
Proof.
  intros HQ. destruct (yields_sessionGet url ref w) as (n & h & w' & H).
  eapply post_yields; [exact H |]. apply HQ. apply H.
Qed.

Lemma downloadPost_nil item (enough : Prop) o :
  (enough -> exists s, o = Ret s) -> downloadPost item enough o [].
Proof.
  intros H. split; [apply issuedFor_nil |]. split; [| done].
  intros e He. by apply elem_of_nil in He.
Qed.

Lemma downloadPost_get item (enough : Prop) url h res s :
  (forall r, res = GetResponse r -> statusCode r = 404%Z -> s = failure 404 "Not Found") ->
  downloadPost item enough (Ret s) [EvGet item url h res].
Proof.
  intros H. split; [by apply issuedFor_tagged |]. split; [| by eauto].
  intros e He Ha. apply list_elem_of_singleton in He as ->.
  split; [| by exists []]. destruct res as [r |]; [| done]. by rewrite (H r).
Qed.

(** A first GET not answered 404, followed by further events. *)
Lemma downloadPost_cons item (enough enough' : Prop) url h res o mid evs :
  (forall r, res = GetResponse r -> statusCode r <> 404%Z) ->
  issuedFor item mid -> (forall e, e ∈ mid -> ~ answered 404 e) ->
  (enough -> enough') ->
  downloadPost item enough' o evs ->
  downloadPost item enough o ([EvGet item url h res] ++ mid ++ evs).
Proof.
  intros Hres Hmid Hquiet Hen (Hi & H404 & Hret).
  split; [| split].
  - apply issuedFor_app; [by apply issuedFor_tagged | by apply issuedFor_app].
  - intros e He Ha.
    apply elem_of_app in He as [He | He].
    { apply list_elem_of_singleton in He as ->. destruct res as [r |]; [| done].
      by destruct (Hres r). }
    apply elem_of_app in He as [He | He]; [by destruct (Hquiet e) |].
    destruct (H404 e He Ha) as (-> & pre & ->). split; [done |].
    exists ([EvGet item url h res] ++ mid ++ pre). by rewrite <- !app_assoc.
  - intros H. apply Hret, Hen, H.
Qed.

Lemma isRedirect_not_404 code : isRedirect code = true -> code <> 404%Z.
Proof. unfold isRedirect. intros H ->. done. Qed.

Lemma attemptDownload_post fuel out ref retries maxR attempt url rc prev w :
  Post (attemptDownload env fuel out ref retries maxR attempt url rc prev) w
    (fun o w' evs =>
       downloadPost (current w) (downloadBudget retries maxR attempt rc <= fuel) o evs).
Proof.
  revert attempt url rc prev w.
  induction fuel as [| fuel IH]; intros attempt url rc prev w; simpl.
  { apply post_stuck, downloadPost_nil. unfold downloadBudget. lia. }
  destruct (maxR <=? rc)%nat eqn:Hrc.
  { apply post_ret, downloadPost_nil. eauto. }
  apply Nat.leb_gt in Hrc.
  apply post_quiet; [apply quiet_createWriteStream |]. intros [] w1 Hc1.
  apply post_bind, post_sessionGet. intros n h w2 Hc2 _. rewrite Hc1 in *.
  destruct (httpGet env n url) as [r | msg] eqn:Hres.
  - destruct (isRedirect (statusCode r)) eqn:Hred.
    { pose proof (isRedirect_not_404 _ Hred) as Hne.
      assert (Hnoloc : forall msg,
        Post (unlink out ;; ret (failure (statusCode r) msg)) w2
          (fun o2 _ evs2 =>
             downloadPost (current w) (downloadBudget retries maxR attempt rc <= S fuel) o2
               ([EvGet (current w) url h (GetResponse r)] ++ evs2))).
      { intros msg. apply post_quiet; [apply quiet_unlink |]. intros [] w3 Hc3.
        apply post_ret. simpl. apply downloadPost_get. intros r' [= <-] ?. done. }
      destruct (location r) as [loc |]; [| apply Hnoloc].
      destruct (truthy loc); [| apply Hnoloc].
      destruct (_ || _).
      - apply post_quiet; [apply quiet_unlinkIfSmall |]. intros [] w3 Hc3.
        apply post_ret. simpl. apply downloadPost_get. intros r' [= <-] ?. done.
      - eapply post_conseq; [apply IH |]. intros o w' evs HP. rewrite Hc2 in HP.
        eapply downloadPost_cons with (mid := []); [| | | | exact HP].
        + intros r' [= <-]. done.
        + apply issuedFor_nil.
        + intros e He. by apply elem_of_nil in He.
        + unfold downloadBudget. lia. }
    destruct (statusCode r =? 404)%Z eqn:H404.
    { apply post_quiet; [apply quiet_unlinkIfSmall |]. intros [] w3 Hc3.
      apply post_ret. simpl. apply downloadPost_get. intros; done. }
    apply Z.eqb_neq in H404.
    destruct (negb (statusCode r =? 200)%Z) eqn:H200; simpl.
    + apply post_quiet; [apply quiet_when, quiet_unlinkIfSmall |]. intros [] w3 Hc3.
      destruct (attempt <? retries)%Z eqn:Hatt.
      * apply Z.ltb_lt in Hatt.
        apply post_bind, post_emit. intros w4 Hc4 _ _ _.
        eapply post_conseq; [apply IH |]. intros o w' evs HP.
        rewrite Hc4, Hc3, Hc2 in HP.
        eapply downloadPost_cons with (mid := [EvSleep _]); [| | | | exact HP].
        -- intros r' [= <-]. done.
        -- by apply issuedFor_untagged.
        -- intros e He. apply list_elem_of_singleton in He as ->. simpl. tauto.
        -- unfold downloadBudget. lia.
      * apply post_ret. simpl. apply downloadPost_get. intros r' [= <-] ?. done.
    + apply post_quiet; [apply quiet_writeFile |]. intros [] w3 Hc3.
      apply post_ret. simpl. apply downloadPost_get. intros r' [= <-] ?. done.
  - apply post_quiet; [apply quiet_when, quiet_unlinkIfSmall |]. intros [] w3 Hc3.
    destruct (attempt <? retries)%Z eqn:Hatt.
    * apply Z.ltb_lt in Hatt.
      apply post_bind, post_emit. intros w4 Hc4 _ _ _.
      eapply post_conseq; [apply IH |]. intros o w' evs HP.
      rewrite Hc4, Hc3, Hc2 in HP.
      eapply downloadPost_cons with (mid := [EvSleep _]); [| | | | exact HP].
      -- intros r' [=].
      -- by apply issuedFor_untagged.
      -- intros e He. apply list_elem_of_singleton in He as ->. simpl. tauto.
      -- unfold downloadBudget. lia.
    * apply post_ret. simpl. apply downloadPost_get. intros; done.
Qed.

Lemma downloadFile_post url out ref retries maxR w :
  Post (downloadFile env url out ref retries maxR) w
    (fun o w' evs => downloadPost (current w) True o evs).
Proof.
  eapply post_conseq; [apply attemptDownload_post |].
  intros o w' evs (Hi & H404 & Hret). split; [done |]. split; [done |].
  intros _. apply Hret. lia.
Qed.

End Download.

(** ** The change detector [checkFileChanged] *)

Section Check.

Variable env : Env.

Lemma yields_sessionHead url w :
  exists n h w',
    Yields (sessionHead env url) w (Ret (httpHead env n url)) w'
      [EvHead (current w) url h (httpHead env n url)]
    /\ files w' = files w /\ cookieJar w' = cookieJar w.
Proof.
  exists (requests w). unfold Yields.
  unfold sessionHead, getBrowserHeaders, getRandomUserAgent, mathRandom, bind, tickDraws,
    getCookieJar, getCurrent, tickRequests, emit, ret. simpl.
  by eexists _, _.
Qed.

Lemma sizesDiffer_false (localSize : option nat) (remoteSize : option Z) :
  sizesDiffer localSize remoteSize = false <->
  exists n, localSize = Some n /\ remoteSize = Some (Z.of_nat n).
Proof.
  unfold sizesDiffer. destruct localSize as [l |], remoteSize as [r |]; simpl.
  - rewrite negb_false_iff, Z.eqb_eq. split.
    + intros <-. by exists l.
    + by intros (n & [= ->] & [= ->]).
  - split; [done | by intros (n & _ & ?)].
  - split; [done | by intros (n & ? & _)].
  - split; [done | by intros (n & ? & _)].
Qed.

Lemma sameSizeReported_nil item dir path : ~ sameSizeReported item dir path [].
Proof. by intros (u & h & r & c & Hl & _). Qed.

(** A first event that is not a HEAD answered 200 does not decide. *)
Lemma sameSizeReported_cons item dir path g evs :
  (forall u h r, g = EvHead item u h (ProbeResponse r) -> statusCode r <> 200%Z) ->
  sameSizeReported item dir path ([g] ++ evs) <-> sameSizeReported item dir path evs.
Proof.
  intros Hg. unfold sameSizeReported. rewrite last_app. simpl.
  destruct (last evs) as [x |] eqn:Hlast; [done |].
  split.
  - intros (u & h & r & c & [= ->] & H200 & _). by destruct (Hg u h r).
  - by intros (u & h & r & c & ? & _).
Qed.

Lemma sameSizeReported_single item dir path u h res :
  sameSizeReported item dir path [EvHead item u h res] <->
  exists r content, res = ProbeResponse r /\ statusCode r = 200%Z
                    /\ dir !! path = Some content
                    /\ remoteSizeOf r = Some (Z.of_nat (String.length content)).
Proof.
  unfold sameSizeReported. simpl. split.
  - intros (u' & h' & r & c & [= -> -> ->] & ?). by exists r, c.
  - intros (r & c & -> & ?). by exists u, h, r, c.
Qed.

Lemma isRedirect_not_200 code : isRedirect code = true -> code <> 200%Z.
Proof. unfold isRedirect. intros H ->. done. Qed.

Lemma checkPost_single w path (enough : Prop) changed w' u h res :
  files w' = files w -> cookieJar w' = cookieJar w ->
  (changed = false <->
   exists r content, res = ProbeResponse r /\ statusCode r = 200%Z
                     /\ files w !! path = Some content
                     /\ remoteSizeOf r = Some (Z.of_nat (String.length content))) ->
  checkPost w path enough (Ret changed) w' [EvHead (current w) u h res].
Proof.
  intros Hf Hj Hiff. split; [by apply issuedFor_tagged |].
  split; [by repeat constructor |]. split; [done |]. split; [done |].
  intros _. exists changed. split; [done |]. by rewrite sameSizeReported_single.
Qed.

Lemma checkFile_post fuel path maxR url rc w :
  Post (checkFile env fuel path maxR url rc) w
    (fun o w' evs => checkPost w path (maxR - rc < fuel) o w' evs).
Proof.
  revert url rc w. induction fuel as [| fuel IH]; intros url rc w; simpl.
  { apply post_stuck. split; [apply issuedFor_nil |]. split; [constructor |].
    split; [done |]. split; [done |]. lia. }
  destruct (maxR <=? rc)%nat eqn:Hrc.
  { apply post_ret. split; [apply issuedFor_nil |]. split; [constructor |].
    split; [done |]. split; [done |]. intros _. exists true. split; [done |].
    split; [done |]. intros H. by apply sameSizeReported_nil in H. }
  apply Nat.leb_gt in Hrc. apply post_bind.
  destruct (yields_sessionHead url w) as (n & h & w1 & H1 & Hf1 & Hj1).
  eapply post_yields; [exact H1 |]. intros Hc1.
  assert (Htrue : forall w2 : World, files w2 = files w -> cookieJar w2 = cookieJar w ->
    (forall r, httpHead env n url = ProbeResponse r -> statusCode r <> 200%Z) ->
    checkPost w path (maxR - rc < S fuel) (Ret true) w2
      ([EvHead (current w) url h (httpHead env n url)] ++ [])).
  { intros w2 Hf2 Hj2 Hno. apply checkPost_single; [done | done |]. split; [done |].
    intros (r & c & Hr & H200 & _). by destruct (Hno r). }
  destruct (httpHead env n url) as [r | |] eqn:Hres;
    [| apply post_ret, Htrue; done ..].
  destruct (isRedirect (statusCode r)) eqn:Hred.
  { pose proof (isRedirect_not_200 _ Hred) as Hne.
    assert (Hstop : Post (ret true) w1 (fun o2 w2 evs2 =>
              checkPost w path (maxR - rc < S fuel) o2 w2
                ([EvHead (current w) url h (ProbeResponse r)] ++ evs2))).
    { apply post_ret, Htrue; [done | done |]. by intros r' [= <-]. }
    destruct (location r) as [loc |]; [| exact Hstop].
    destruct (truthy loc); [| exact Hstop].
    eapply post_conseq; [apply IH |].
    intros o w2 evs (Hi & Hg & Hf2 & Hj2 & Hret). rewrite Hc1, Hf1 in *.
    split; [apply issuedFor_app; [by apply issuedFor_tagged | done] |].
    split; [by constructor |]. split; [congruence |]. split; [congruence |].
    intros Hen. destruct Hret as (changed & -> & Hiff); [lia |].
    exists changed. split; [done |]. rewrite Hiff. symmetry.
    apply sameSizeReported_cons. by intros u' h' r' [= _ _ <-]. }
  destruct (statusCode r =? 404)%Z eqn:H404.
  { apply Z.eqb_eq in H404. apply post_ret, Htrue; [done | done |].
    intros r' [= <-]. lia. }
  destruct (negb (statusCode r =? 200)%Z) eqn:H200; simpl.
  { apply negb_true_iff, Z.eqb_neq in H200. apply post_ret, Htrue; [done | done |].
    by intros r' [= <-]. }
  apply negb_false_iff, Z.eqb_eq in H200.
  unfold getLocalFileSize, getFiles. unfold bind at 1. unfold ret at 1.
  apply post_ret. apply checkPost_single; [done | done |].
  rewrite sizesDiffer_false, Hf1. split.
  - intros (len & Hl & Hr). destruct (files w !! path) as [content |] eqn:Hc; [| done].
    injection Hl as <-. by exists r, content.
  - intros (r' & content & [= <-] & _ & Hc & Hr). exists (String.length content).
    by rewrite Hc.
Qed.

Lemma checkFileChanged_post url path maxR w :
  Post (checkFileChanged env url path maxR) w
    (fun o w' evs => checkPost w path True o w' evs).
Proof.
  eapply post_conseq; [apply checkFile_post |].
  intros o w' evs (Hi & Hg & Hf & Hj & Hret). repeat (split; [done |]).
  intros _. apply Hret. lia.
Qed.

End Check.

(** ** The batch loop of [main] *)

Section Batch.

Variable env : Env.
Variable cfg : Config.

Lemma yields_emits {A} (m : M A) w o w' evs : Yields m w o w' evs -> Emits m w o w' evs.
Proof. by intros (E & T & _). Qed.

Lemma emits_bind {A B} (m : M A) (f : A -> M B) w o1 w1 evs1 :
  Emits m w o1 w1 evs1 ->
  match o1 with
  | Ret a => forall o w2 evs2, Emits (f a) w1 o w2 evs2 ->
                               Emits (bind m f) w o w2 (evs1 ++ evs2)
  | Exit code => Emits (bind m f) w (Exit code) w1 evs1
  | Stuck => Emits (bind m f) w Stuck w1 evs1
  end.
Proof.
  intros (E & T). destruct o1 as [a | code |]; unfold Emits, bind; rewrite E; [| done ..].
  intros o w2 evs2 (E2 & T2). split; [done |]. by rewrite T2, T, app_assoc.
Qed.

Lemma emits_total {A} (m : M A) w :
  (exists evs, trace (m w).2 = trace w ++ evs) -> exists o w' evs, Emits m w o w' evs.
Proof.
  intros (evs & Ht). exists (m w).1, (m w).2, evs. split; [by destruct (m w) | done].
Qed.

Lemma stopsAt404_quiet {A} (o : Outcome A) evs :
  (forall e, e ∈ evs -> ~ answered 404 e) -> stopsAt404 cfg o evs.
Proof. intros H e He Ha. by destruct (H e He). Qed.

Lemma stopsAt404_nil {A} (o : Outcome A) : stopsAt404 cfg o [].
Proof. apply stopsAt404_quiet. intros e He. by apply elem_of_nil in He. Qed.

(** Events of a step that went on, then the events of what follows. *)
Lemma stopsAt404_app {A B} (a : A) (o : Outcome B) evs1 evs2 :
  stopsAt404 cfg (Ret a) evs1 -> stopsAt404 cfg o evs2 -> stopsAt404 cfg o (evs1 ++ evs2).
Proof.
  intros H1 H2 e He Ha. apply elem_of_app in He as [He | He].
  - by destruct (H1 e He Ha) as [? _].
  - destruct (H2 e He Ha) as (-> & pre & item & Htag & ->). split; [done |].
    exists (evs1 ++ pre), item. by rewrite <- app_assoc.
Qed.

Lemma stopsAt404_exit {A B} (o : Outcome A) evs :
  stopsAt404 cfg o evs -> forall code, o = Exit code -> stopsAt404 cfg (@Exit B code) evs.
Proof.
  intros H code -> e He Ha. destruct (H e He Ha) as ([= ->] & Hrest). by split.
Qed.

(** *** The branches on a settled download *)

Lemma recordResult_post filename url s t w :
  Post (recordResult filename url s t) w
    (fun o w' evs =>
       exists r, evs = [EvLog r]
         /\ ((exists t', o = Ret t') \/ (o = Exit 1 /\ r = NotFound filename url))
         /\ (forall message, s = failure 404 message ->
               o = Exit 1 /\ r = NotFound filename url)).
Proof.
  unfold recordResult, log. destruct s as [result | message].
  - destruct (success result) eqn:Hs.
    { apply post_bind, post_emit. intros w1 _ _ _ _. apply post_ret.
      eexists. split; [done |]. split; [eauto |]. by intros m [= ->]. }
    case_bool_decide as H404.
    + apply post_bind, post_emit. intros w1 _ _ _ _. apply post_exit.
      eexists. split; [done |]. split; [by right | done].
    + apply post_bind, post_emit. intros w1 _ _ _ _. apply post_ret.
      eexists. split; [done |]. split; [eauto |]. intros m [= ->]. by destruct H404.
  - apply post_bind, post_emit. intros w1 _ _ _ _. apply post_ret.
    eexists. split; [done |]. split; [eauto |]. done.
Qed.

Lemma post_getRandomDelay b v w (Q : Outcome Q -> World -> list Event -> Prop) :
  (forall n w', current w' = current w -> files w' = files w ->
                Q (Ret (b + inject_Z (Qfloor (random env n * v)))%Q) w' []) ->
  Post (getRandomDelay env b v) w Q.
Proof.
  intros HQ. eapply post_yields; [| apply (HQ (draws w))].
  - unfold Yields, getRandomDelay, mathRandom, bind, tickDraws, ret. simpl.
    by rewrite app_nil_r.
  - done.
  - done.
Qed.

Lemma politePause_post w :
  Post (politePause env cfg) w
    (fun o w' evs => o = Ret tt /\ files w' = files w
                     /\ (evs = [] \/ exists ms, evs = [EvSleep ms])).
Proof.
  unfold politePause, when. destruct (0 <? delay cfg)%Z.
  - apply post_bind, post_getRandomDelay. intros n w1 _ Hf1 _.
    apply post_emit. intros w2 _ Hf2 _. split; [done |]. split; [congruence |]. eauto.
  - apply post_ret. eauto.
Qed.

Lemma headCheck_post url path w :
  Post (headCheck env cfg url path) w
    (fun o w' evs =>
       issuedFor (current w) evs /\ Forall (fun e => isGet e = false) evs
       /\ files w' = files w /\ exists unchanged, o = Ret unchanged).
Proof.
  unfold headCheck. apply post_bind.
  assert (Hpause : Post (when (0 <? delay cfg)%Z
              (headDelay <- getRandomDelay env (inject_Z (delay cfg) / 2)
                              (inject_Z (delayVariation cfg) / 2) ;;
               sleep headDelay)) w
            (fun o w1 evs1 => o = Ret tt /\ current w1 = current w /\ files w1 = files w
                              /\ issuedFor (current w) evs1
                              /\ Forall (fun e => isGet e = false) evs1)).
  { unfold when. destruct (0 <? delay cfg)%Z.
    - apply post_bind, post_getRandomDelay. intros n w1 Hc1 Hf1 _.
      apply post_emit. intros w2 Hc2 Hf2 _.
      split; [done |]. split; [congruence |]. split; [congruence |].
      split; [by apply issuedFor_untagged | by repeat constructor].
    - apply post_ret. split; [done |]. split; [done |]. split; [done |].
      split; [apply issuedFor_nil | constructor]. }
  eapply post_conseq; [exact Hpause |].
  intros o w1 evs1 (-> & Hc1 & Hf1 & Hi1 & Hg1) _.
  apply post_bind. eapply post_conseq; [apply checkFileChanged_post |].
  intros o w2 evs2 (Hi2 & Hg2 & Hf2 & _ & Hret) Hc2.
  destruct Hret as (changed & -> & _); [done |].
  apply post_ret. rewrite Hc1 in Hi2.
  split; [rewrite app_nil_r; by apply issuedFor_app |].
  split; [rewrite app_nil_r; by apply Forall_app_2 |].
  split; [congruence | eauto].
Qed.

Lemma itemPost_quiet {A} item filename url (o : Outcome A) evs :
  issuedFor item evs -> Forall (fun e => isGet e = false) evs -> o <> Stuck ->
  itemPost item filename url o evs.
Proof.
  intros Hi Hg Ho. split; [done |]. split; [| done]. intros e He Ha.
  rewrite Forall_forall in Hg. specialize (Hg e He). by destruct e.
Qed.

Lemma not_answered_unless_get e : isGet e = false -> ~ answered 404 e.
Proof. destruct e; simpl; intros ?; try done; tauto. Qed.

Lemma processItem_post ref filename url t w :
  Post (processItem env cfg ref filename url t) w
    (fun o w' evs => itemPost (current w) filename url o evs).
Proof.
  unfold processItem.
  apply post_quiet; [apply quiet_fileExists |]. intros present w1 Hc1.
  destruct (_ && _ && present).
  { apply post_ret, itemPost_quiet; [apply issuedFor_nil | constructor | done]. }
  apply post_bind.
  assert (Hcheck : Post (if checkExisting cfg && negb (dryRun cfg) && present
                         then headCheck env cfg url filename else ret false) w1
            (fun o w2 evs2 =>
               issuedFor (current w) evs2 /\ Forall (fun e => isGet e = false) evs2
               /\ exists unchanged, o = Ret unchanged)).
  { destruct (_ && _ && present).
    - eapply post_conseq; [apply headCheck_post |].
      intros o w2 evs2 (Hi & Hg & _ & Hret). by rewrite <- Hc1.
    - apply post_ret. split; [apply issuedFor_nil |]. split; [constructor | eauto]. }
  eapply post_conseq; [exact Hcheck |].
  intros o w2 evs2 (Hi2 & Hg2 & unchanged & ->) Hc2.
  destruct unchanged.
  { apply post_ret. rewrite app_nil_r. by apply itemPost_quiet. }
  destruct (dryRun cfg).
  { apply post_bind, post_emit. intros w3 _ _ _ _. apply post_ret.
    apply itemPost_quiet; [| | done].
    - apply issuedFor_app; [done | by apply issuedFor_untagged].
    - apply Forall_app_2; [done | by repeat constructor]. }
  apply post_bind. eapply post_conseq; [apply downloadFile_post |].
  intros o w3 evs3 (Hi3 & H404 & Hret) Hc3. rewrite Hc2, Hc1 in Hi3.
  destruct Hret as (s & ->); [done |].
  apply post_bind. eapply post_conseq; [apply recordResult_post |].
  intros o w4 evs4 (r & -> & Hor & Hnf) Hc4.
  assert (Hbefore : forall e, e ∈ evs2 -> ~ answered 404 e).
  { intros e He. rewrite Forall_forall in Hg2. by apply not_answered_unless_get, Hg2. }
  destruct Hor as [(t' & ->) | (-> & ->)].
  - (* the download was recorded and the loop goes on *)
    apply post_bind. eapply post_conseq; [apply politePause_post |].
    intros o w5 evs5 (-> & _ & Hpause) _. apply post_ret. rewrite app_nil_r.
    split; [| split; [| done]].
    + repeat apply issuedFor_app; try done; [by apply issuedFor_untagged |].
      destruct Hpause as [-> | (ms & ->)];
        [apply issuedFor_nil | by apply issuedFor_untagged].
    + intros e He Ha.
      apply elem_of_app in He as [He | He]; [by destruct (Hbefore e) |].
      apply elem_of_app in He as [He | He].
      { destruct (H404 e He Ha) as ([= ->] & _). by destruct (Hnf "Not Found"). }
      apply elem_of_app in He as [He | He].
      { by apply list_elem_of_singleton in He as ->. }
      destruct Hpause as [-> | (ms & ->)]; [by apply elem_of_nil in He |].
      by apply list_elem_of_singleton in He as ->.
  - (* status 404: the process exits *)
    split; [| split; [| done]].
    + repeat apply issuedFor_app; try done. by apply issuedFor_untagged.
    + intros e He Ha. split; [done |].
      apply elem_of_app in He as [He | He]; [by destruct (Hbefore e) |].
      apply elem_of_app in He as [He | He].
      * destruct (H404 e He Ha) as (_ & pre & ->). exists (evs2 ++ pre).
        by rewrite <- !app_assoc.
      * by apply list_elem_of_singleton in He as ->.
Qed.

(** *** Loops *)

Lemma stepSpec_ret {A} (P : Event -> Prop) (a : A) w : StepSpec cfg P (ret a) w.
Proof.
  exists (Ret a), w, []. split; [by apply yields_emits, yields_ret |].
  split; [apply stopsAt404_nil |]. split; [done | constructor].
Qed.

Lemma stepSpec_bind {A B} (P : Event -> Prop) (m : M A) (f : A -> M B) w :
  StepSpec cfg P m w -> (forall a w1, StepSpec cfg P (f a) w1) -> StepSpec cfg P (bind m f) w.
Proof.
  intros (o1 & w1 & evs1 & H1 & Hs1 & Hn1 & HP1) Hf.
  pose proof (emits_bind m f _ _ _ _ H1) as Hb.
  destruct o1 as [a | code |]; [| | done].
  - destruct (Hf a w1) as (o2 & w2 & evs2 & H2 & Hs2 & Hn2 & HP2).
    exists o2, w2, (evs1 ++ evs2). split; [by apply Hb |].
    split; [by eapply stopsAt404_app |]. split; [done | by apply Forall_app_2].
  - exists (Exit code), w1, evs1. split; [done |].
    split; [by eapply stopsAt404_exit |]. done.
Qed.

Lemma stepSpec_forEach {A S} (P : Event -> Prop) (step : S -> A -> M S) xs s w :
  (forall s x w, StepSpec cfg P (step s x) w) -> StepSpec cfg P (forEach step xs s) w.
Proof.
  intros Hstep. revert s w. induction xs as [| x xs IH]; intros s w; simpl.
  - apply stepSpec_ret.
  - apply stepSpec_bind; [apply Hstep | intros s' w1; apply IH].
Qed.

Lemma stepSpec_weaken {A} (P P' : Event -> Prop) (m : M A) w :
  (forall e, P e -> P' e) -> StepSpec cfg P m w -> StepSpec cfg P' m w.
Proof.
  intros HPP (o & w' & evs & H & Hs & Hn & HP). exists o, w', evs.
  repeat (split; [done |]). by eapply Forall_impl.
Qed.

(** An item whose console name and URL are those of its tag. *)
Lemma stepSpec_item item filename url ref t w :
  notFoundReport cfg item = NotFound filename url ->
  StepSpec cfg (requestsFor item) (setCurrent item ;; processItem env cfg ref filename url t) w.
Proof.
  intros Hreport.
  set (w0 := {| cookieJar := cookieJar w; files := files w; trace := trace w;
                requests := requests w; draws := draws w; current := item |}).
  destruct (processItem_post ref filename url t w0)
    as (o & w' & evs & (E & T & _) & Hi & H404 & Hns).
  exists o, w', evs. split; [by split |]. split; [| by split].
  intros e He Ha. destruct (H404 e He Ha) as (-> & pre & ->). split; [done |].
  exists pre, item. split; [| by rewrite Hreport].
  unfold issuedFor in Hi. rewrite Forall_forall in Hi. specialize (Hi e He).
  destruct e as [| | i u h res | |]; try done. simpl. f_equal. by apply Hi.
Qed.

Lemma additionalStep_spec ref t pdfTemplate w :
  StepSpec cfg forAdditional (additionalStep env cfg ref t pdfTemplate) w.
Proof.
  unfold additionalStep. eapply stepSpec_weaken; [| by apply stepSpec_item].
  intros e He i Hi. eauto.
Qed.

Lemma headingStep_spec ref resumeFrom chapter t heading w :
  StepSpec cfg forGrid (headingStep env cfg ref resumeFrom chapter t heading) w.
Proof.
  unfold headingStep. destruct (match resumeFrom with Some _ => _ | None => _ end).
  - apply stepSpec_ret.
  - eapply stepSpec_weaken; [| by apply stepSpec_item].
    intros e He i Hi. eauto.
Qed.

Lemma chapterStep_spec ref resumeFrom t chapter w :
  StepSpec cfg forGrid (chapterStep env cfg ref resumeFrom t chapter) w.
Proof.
  unfold chapterStep. destruct (match resumeFrom with Some _ => _ | None => _ end).
  - apply stepSpec_ret.
  - apply stepSpec_forEach. intros. apply headingStep_spec.
Qed.

Lemma stepSpec_untagged {A} (m : M A) w o w' evs :
  Emits m w o w' evs -> o <> Stuck -> Forall untagged evs -> StepSpec cfg untagged m w.
Proof.
  intros H Hn Hu. exists o, w', evs. split; [done |]. split; [| done].
  apply stopsAt404_quiet. intros e He. rewrite Forall_forall in Hu.
  specialize (Hu e He). unfold untagged in Hu. destruct e; simpl in *; try done; tauto.
Qed.

Lemma establishSession_spec w : StepSpec cfg untagged (establishSession env (edition cfg)) w.
Proof.
  assert (exists res h w', Emits (establishSession env (edition cfg)) w
            (Ret (mainPageUrl (edition cfg))) w' [EvVisit (mainPageUrl (edition cfg)) h res])
    as (res & h & w' & H).
  { unfold Emits, establishSession, getBrowserHeaders, getRandomUserAgent, mathRandom, bind,
      tickDraws, getCookieJar, tickRequests, emit, ret. simpl.
    destruct (httpVisit env (requests w) _) as [r | |];
      [| by eexists _, _, _ | by eexists _, _, _ ].
    unfold extractCookies, when, setCookieJar, ret.
    destruct (setCookie r) as [hs |]; [| by eexists _, _, _].
    destruct (0 <? _)%nat; by eexists _, _, _. }
  eapply stepSpec_untagged; [exact H | done | by repeat constructor].
Qed.

Lemma stepSpec_quiet {A} (P : Event -> Prop) (m : M A) w : Quiet m -> StepSpec cfg P m w.
Proof.
  intros Hq. destruct (Hq w) as (a & w' & H). exists (Ret a), w', [].
  split; [by apply yields_emits |]. split; [apply stopsAt404_nil |].
  split; [done | constructor].
Qed.

Lemma stepSpec_log (P : Event -> Prop) r w : P (EvLog r) -> StepSpec cfg P (log r) w.
Proof.
  intros HP. destruct (yields_emit (EvLog r) w) as (w' & H).
  exists (Ret tt), w', [EvLog r]. split; [by apply yields_emits |].
  split; [| split; [done | by repeat constructor]].
  apply stopsAt404_quiet. intros e He. apply list_elem_of_singleton in He as ->.
  simpl. tauto.
Qed.

Lemma findResumePoint_spec w : StepSpec cfg untagged (findResumePoint cfg) w.
Proof.
  unfold findResumePoint. destruct (resume cfg && negb (dryRun cfg)); [| apply stepSpec_ret].
  apply stepSpec_bind; [apply stepSpec_quiet, quiet_readdir |]. intros entries w1.
  destruct (last _) as [lastFile |]; [| apply stepSpec_ret].
  destruct (matchCoordinate lastFile) as [rp |]; [| apply stepSpec_ret].
  apply stepSpec_bind; [apply stepSpec_log; reflexivity |]. intros [] w2.
  apply stepSpec_ret.
Qed.

(** The whole run: a GET answered 404 ends it with exit code 1 and is
    followed by its report only; requests are issued for additional
    documents and grid items. *)
Lemma main_spec additionalPdfs w :
  StepSpec cfg (fun e => forAdditional e \/ forGrid e) (main env cfg additionalPdfs) w.
Proof.
  unfold main. apply stepSpec_bind.
  { eapply stepSpec_weaken with (P := untagged).
    - intros e He. left. intros i Hi. congruence.
    - destruct (dryRun cfg); [apply stepSpec_ret | apply establishSession_spec]. }
  intros ref w1. apply stepSpec_bind.
  { eapply stepSpec_weaken; [| apply stepSpec_forEach; intros; apply additionalStep_spec].
    intros e He. by left. }
  intros t w2. apply stepSpec_bind.
  { eapply stepSpec_weaken; [| apply findResumePoint_spec].
    intros e He. left. intros i Hi. congruence. }
  intros rp w3.
  eapply stepSpec_weaken; [| apply stepSpec_forEach; intros; apply chapterStep_spec].
  intros e He. by right.
Qed.

(** A run of [main] always ends: completed, or exit. *)
Lemma runMain_finishes additionalPdfs dir :
  (runMain env cfg additionalPdfs dir).1 <> Unfinished.
Proof.
  unfold runMain.
  destruct (main_spec additionalPdfs (initialWorld dir)) as (o & w' & evs & (E & _) & _ & Hn & _).
  rewrite E. simpl. by destruct o.
Qed.

End Batch.

(** ** A missing mandatory document aborts the run *)

Section MandatoryAbsent.

Variable env : Env.
Variable cfg : Config.

Lemma emits_det {A} (m : M A) w o w' evs o2 w2 evs2 :
  Emits m w o w' evs -> Emits m w o2 w2 evs2 -> o = o2 /\ w' = w2 /\ evs = evs2.
Proof.
  intros (E1 & T1) (E2 & T2). rewrite E1 in E2. injection E2 as -> ->.
  split; [done |]. split; [done |]. rewrite T1 in T2. by apply app_inv_head in T2.
Qed.

Lemma untagged_forAdditional e : untagged e -> forAdditional e.
Proof. intros He i Hi. unfold untagged in He. congruence. Qed.

(** Either the run ended before the grid loop began, and every request was
    for an additional document, or every GET answered 404 was a grid
    request. *)
Lemma main_phases additionalPdfs w :
  exists o w' evs,
    Emits (main env cfg additionalPdfs) w o w' evs
    /\ (Forall forAdditional evs
        \/ forall e, e ∈ evs -> answered 404 e -> forGrid e).
Proof.
  unfold main.
  assert (Hs : StepSpec cfg untagged
                 (if dryRun cfg then ret (mainPageUrl (edition cfg))
                  else establishSession env (edition cfg)) w)
    by (destruct (dryRun cfg); [apply stepSpec_ret | apply establishSession_spec]).
  destruct Hs as (o0 & w0 & evs0 & H0 & _ & _ & P0).
  pose proof (Forall_impl _ _ _ P0 untagged_forAdditional) as A0.
  pose proof (emits_bind _ (fun refererUrl =>
      t <- forEach (additionalStep env cfg refererUrl) additionalPdfs noTotals ;;
      resumeFrom <- findResumePoint cfg ;;
      forEach (chapterStep env cfg refererUrl resumeFrom) (chapters cfg) t) _ _ _ _ H0) as B0.
  destruct o0 as [ref | code |]; [| by eauto 10 ..].
  destruct (stepSpec_forEach cfg forAdditional (additionalStep env cfg ref)
              additionalPdfs noTotals w0 (additionalStep_spec env cfg ref))
    as (oA & wA & evsA & HA & SA & _ & PA).
  pose proof (emits_bind _ (fun t =>
      resumeFrom <- findResumePoint cfg ;;
      forEach (chapterStep env cfg ref resumeFrom) (chapters cfg) t) _ _ _ _ HA) as BA.
  destruct oA as [t | code |];
    [| eexists _, _, _; split; [apply B0, BA | left; by apply Forall_app_2] ..].
  destruct (findResumePoint_spec cfg wA) as (oR & wR & evsR & HR & _ & _ & PR).
  pose proof (Forall_impl _ _ _ PR untagged_forAdditional) as AR.
  pose proof (emits_bind _ (fun resumeFrom =>
      forEach (chapterStep env cfg ref resumeFrom) (chapters cfg) t) _ _ _ _ HR) as BR.
  destruct oR as [rp | code |];
    [| eexists _, _, _; split;
       [apply B0, BA, BR | left; repeat apply Forall_app_2; done] ..].
  destruct (stepSpec_forEach cfg forGrid (chapterStep env cfg ref rp) (chapters cfg) t wR
              (chapterStep_spec env cfg ref rp))
    as (oG & wG & evsG & HG & _ & _ & PG).
  eexists _, _, _. split; [apply B0, BA, BR, HG |]. right.
  intros e He Ha. rewrite Forall_forall in P0, PR, PG.
  apply elem_of_app in He as [He | He].
  { specialize (P0 e He). unfold untagged in P0. destruct e; simpl in *; try done; tauto. }
  apply elem_of_app in He as [He | He]; [by destruct (SA e He Ha) |].
  apply elem_of_app in He as [He | He]; [| by apply PG].
  specialize (PR e He). unfold untagged in PR. destruct e; simpl in *; try done; tauto.
Qed.

End MandatoryAbsent.

(** C2. If the GET for a mandatory (additional) document is answered 404, the
    run ends at once in the aborted state with exit code 1: the request is
    followed by the console report only, so no further network call is made,
    and no request of the whole run was issued for a grid item. *)
Theorem C2_mandatory_404_aborts_run (env : Env) (cfg : Config)
    (additionalPdfs : list string) (dir : gmap string string)
    (e : Event) (filename : string) :
  e ∈ trace (runMain env cfg additionalPdfs dir).2 ->
  tagOf e = Some (Additional filename) ->
  answered 404 e ->
  (runMain env cfg additionalPdfs dir).1 = Aborted 1
  /\ (exists pre,
        trace (runMain env cfg additionalPdfs dir).2
        = pre ++ [e; EvLog (NotFound filename (buildAdditionalUrl (edition cfg) filename))])
  /\ Forall (fun e' => forall chapter heading, tagOf e' <> Some (Grid chapter heading))
       (trace (runMain env cfg additionalPdfs dir).2).
Proof.
  intros He Htag Ha. unfold runMain in *.
  destruct (main_spec env cfg additionalPdfs (initialWorld dir))
    as (o & w' & evs & H & Hstop & _ & _).
  destruct (main_phases env cfg additionalPdfs (initialWorld dir))
    as (o2 & w2 & evs2 & H2 & Hphase).
  destruct (emits_det _ _ _ _ _ _ _ _ H2 H) as (-> & -> & ->).
  destruct H as (E & T). rewrite E in *. simpl in *. rewrite T in *. simpl in *.
  destruct (Hstop e He Ha) as (-> & pre & item & Hitem & ->).
  rewrite Htag in Hitem. injection Hitem as <-.
  split; [done |]. split; [by exists pre |].
  destruct Hphase as [Hadd | Hgrid].
  - eapply Forall_impl; [exact Hadd |]. intros e' He' chapter heading Htag'.
    by destruct (He' _ Htag').
  - destruct (Hgrid e He Ha _ Htag) as (chapter & heading & [=]).
Qed.

(** ** Which outcomes [downloadFile] retries *)

Section Retry.

Variable env : Env.

(** The GET of an attempt is answered by the oracle at the current request
    count. *)
Lemma get_then {A} out url ref (K : GetResult -> M A) w :
  (createWriteStream out ;; res <- sessionGet env url ref ;; K res) w
  = (createWriteStream out ;; _ <- sessionGet env url ref ;;
     K (httpGet env (requests w) url)) w.
Proof.
  unfold bind, createWriteStream, sessionGet, getBrowserHeaders, getRandomUserAgent,
    mathRandom, bind, tickDraws, getCookieJar, getCurrent, tickRequests, emit, getFiles,
    setFiles, ret. simpl.
  destruct (httpGet env (requests w) url) as [r | msg]; [| done].
  unfold extractCookies, when, setCookieJar, ret.
  destruct (setCookie r) as [hs |]; [| done].
  by destruct (0 <? _)%nat.
Qed.

Lemma attemptDownload_unfold fuel out ref retries maxR attempt url rc prev w :
  (rc < maxR)%nat ->
  attemptDownload env (S fuel) out ref retries maxR attempt url rc prev w
  = (createWriteStream out ;;
     res <- sessionGet env url (refererOf prev ref) ;;
     match res with
     | GetResponse response =>
         let code := statusCode response in
         if isRedirect code then
           match location response with
           | Some loc =>
               if truthy loc then
                 if JsString.includes "/error" loc || JsString.includes "404" loc then
                   unlinkIfSmall out ;;
                   ret (failure 404 "Not Found (redirected to error page)")
                 else
                   attemptDownload env fuel out ref retries maxR attempt
                     (redirectTarget env url loc) (S rc) url
               else
                 unlink out ;;
                 ret (failure code ("HTTP " +:+ JsString.ofZ code +:+ " - No redirect location"))
           | None =>
               unlink out ;;
               ret (failure code ("HTTP " +:+ JsString.ofZ code +:+ " - No redirect location"))
           end
         else if (code =? 404)%Z then
           unlinkIfSmall out ;; ret (failure 404 "Not Found")
         else if negb (code =? 200)%Z then
           when ((500 <=? code)%Z && (retries <=? attempt)%Z) (unlinkIfSmall out) ;;
           if (attempt <? retries)%Z then
             sleep (inject_Z (1000 * attempt)) ;;
             attemptDownload env fuel out ref retries maxR (attempt + 1) url rc prev
           else ret (failure code ("HTTP " +:+ JsString.ofZ code))
         else
           writeFile out (body response) ;;
           ret (Resolved {| success := true; status := None; error := None;
                            size := Some (String.length (body response)) |})
     | GetError message =>
         when (retries <=? attempt)%Z (unlinkIfSmall out) ;;
         if (attempt <? retries)%Z then
           sleep (inject_Z (1000 * attempt)) ;;
           attemptDownload env fuel out ref retries maxR (attempt + 1) url rc prev
         else ret (Rejected message)
     end) w.
Proof.
  intros Hrc. simpl. apply Nat.leb_gt in Hrc. by rewrite Hrc.
Qed.

(** While attempts remain, a retryable result is followed by a pause of
    [1000 * attempt] ms and the next attempt on the same URL. *)
Lemma attemptDownload_retries fuel out ref retries maxR attempt url rc prev w :
  (rc < maxR)%nat -> (attempt < retries)%Z ->
  retryable (httpGet env (requests w) url) = true ->
  attemptDownload env (S fuel) out ref retries maxR attempt url rc prev w
  = (createWriteStream out ;;
     _ <- sessionGet env url (refererOf prev ref) ;;
     sleep (inject_Z (1000 * attempt)) ;;
     attemptDownload env fuel out ref retries maxR (attempt + 1) url rc prev) w.
Proof.
  intros Hrc Hatt Hres. rewrite attemptDownload_unfold, get_then by done.
  apply Z.ltb_lt in Hatt as Hlt. assert ((retries <=? attempt)%Z = false) as Hle by lia.
  destruct (httpGet env (requests w) url) as [r | msg]; simpl in *.
  - apply andb_true_iff in Hres as [Hres H200].
    apply andb_true_iff in Hres as [Hred H404].
    apply negb_true_iff in Hred, H404. rewrite Hred, H404, H200, Hlt, Hle.
    by rewrite andb_false_r.
  - by rewrite Hlt, Hle.
Qed.

(** With no attempt left, a retryable result settles the download. *)
Lemma attemptDownload_gives_up fuel out ref retries maxR attempt url rc prev w :
  (rc < maxR)%nat -> (retries <= attempt)%Z ->
  retryable (httpGet env (requests w) url) = true ->
  attemptDownload env (S fuel) out ref retries maxR attempt url rc prev w
  = (createWriteStream out ;;
     _ <- sessionGet env url (refererOf prev ref) ;;
     when (cleansUp (httpGet env (requests w) url)) (unlinkIfSmall out) ;;
     ret (givenUp (httpGet env (requests w) url))) w.
Proof.
  intros Hrc Hatt Hres. rewrite attemptDownload_unfold, get_then by done.
  assert ((attempt <? retries)%Z = false) as Hlt by lia.
  apply Z.leb_le in Hatt as Hle.
  destruct (httpGet env (requests w) url) as [r | msg]; simpl in *.
  - apply andb_true_iff in Hres as [Hres H200].
    apply andb_true_iff in Hres as [Hred H404].
    apply negb_true_iff in Hred, H404. rewrite Hred, H404, H200, Hlt, Hle.
    by rewrite andb_true_r.
  - by rewrite Hlt, Hle.
Qed.




End Retry.

(** ** Blocked responses (403, 429) *)

Section Blocked.

Variable env : Env.

Lemma blocked_retryable r :
  statusCode r = 403%Z \/ statusCode r = 429%Z -> retryable (GetResponse r) = true.
Proof. simpl. by intros [-> | ->]. Qed.

(** [main] counts a download settled with status 403 or 429 as failed and
    goes on. *)
Lemma recordResult_blocked filename url code t w :
  code = 403%Z \/ code = 429%Z ->
  (recordResult filename url (failure code ("HTTP " +:+ JsString.ofZ code)) t w).1
  = Ret (failed filename ("HTTP " +:+ JsString.ofZ code) t).
Proof. by intros [-> | ->]. Qed.

(** While attempts remain, a blocked response is followed by a pause and
    the next attempt. *)
Lemma attemptDownload_blocked_retries r fuel out ref retries maxR attempt url rc prev w :
  blocked r -> (rc < maxR)%nat -> (attempt < retries)%Z ->
  httpGet env (requests w) url = GetResponse r ->
  attemptDownload env (S fuel) out ref retries maxR attempt url rc prev w
  = (createWriteStream out ;;
     _ <- sessionGet env url (refererOf prev ref) ;;
     sleep (inject_Z (1000 * attempt)) ;;
     attemptDownload env fuel out ref retries maxR (attempt + 1) url rc prev) w.
Proof.
  intros Hb Hrc Hatt Hres. apply attemptDownload_retries; [done | done |].
  rewrite Hres. by apply blocked_retryable.
Qed.

(** With no attempt left, it settles the download with its status; nothing
    is cleaned up. *)
Lemma attemptDownload_blocked_settles r fuel out ref retries maxR attempt url rc prev w :
  blocked r -> (rc < maxR)%nat -> (retries <= attempt)%Z ->
  httpGet env (requests w) url = GetResponse r ->
  attemptDownload env (S fuel) out ref retries maxR attempt url rc prev w
  = (createWriteStream out ;;
     _ <- sessionGet env url (refererOf prev ref) ;;
     ret (httpFailure (statusCode r))) w.
Proof.
  intros Hb Hrc Hatt Hres.
  rewrite attemptDownload_gives_up; [| done | done | rewrite Hres; by apply blocked_retryable].
  rewrite Hres. simpl. by destruct Hb as [-> | ->].
Qed.

(** Against a URL that is always answered by the same blocked response, the
    download uses every attempt it has and settles with that status. *)
Lemma attemptDownload_always_blocked r out ref retries maxR url rc prev :
  blocked r -> (rc < maxR)%nat ->
  (forall n, httpGet env n url = GetResponse r) ->
  forall k fuel attempt w,
    Z.to_nat (retries - attempt) = k -> k < fuel ->
    After (attemptDownload env fuel out ref retries maxR attempt url rc prev) w
      (fun o w' =>
         o = Ret (httpFailure (statusCode r))
         /\ exists evs, trace w' = trace w ++ evs /\ getCount evs = S k).
Proof.
  intros Hb Hrc Hall.
  induction k as [| k IH]; intros fuel attempt w Hk Hfuel;
    (destruct fuel as [| fuel]; [lia |]).
  - eapply after_eq; [apply (attemptDownload_blocked_settles r); (done || lia) |].
    apply attempt_begins. intros h w1 T C. apply after_ret. split; [done |].
    eexists. split; [exact T | reflexivity].
  - eapply after_eq; [apply (attemptDownload_blocked_retries r); (done || lia) |].
    apply attempt_begins. intros h w1 T C.
    eapply after_next; [reflexivity |].
    eapply after_conseq; [apply (IH fuel (attempt + 1)%Z); lia |].
    intros o w' (-> & evs & T' & Hcount). split; [done |].
    eexists (_ :: _ :: evs). split.
    + rewrite T'. simpl. rewrite T, <- !app_assoc. reflexivity.
    + unfold getCount in *. simpl. by rewrite Hcount.
Qed.

Lemma downloadFile_always_blocked r url out ref retries w :
  blocked r -> (forall n, httpGet env n url = GetResponse r) ->
  After (downloadFile env url out ref retries 5) w
    (fun o w' =>
       o = Ret (httpFailure (statusCode r))
       /\ exists evs, trace w' = trace w ++ evs
                      /\ getCount evs = Z.to_nat (Z.max 1 retries)).
Proof.
  intros Hb Hall. unfold downloadFile, downloadBudget.
  eapply after_conseq.
  - apply (attemptDownload_always_blocked r out ref retries 5 url 0 "" Hb ltac:(lia) Hall
             (Z.to_nat (retries - 1))); lia.
  - intros o w' (-> & evs & T & Hcount). split; [done |]. exists evs. split; [done | lia].
Qed.

Lemma fileExists_absent path w : files w !! path = None -> fileExists path w = (Ret false, w).
Proof.
  intros H. unfold fileExists, bind, getFiles, ret. rewrite H.
  rewrite bool_decide_eq_false_2; [done |]. by intros [? ?].
Qed.

Lemma politePause_returns cfg w : (politePause env cfg w).1 = Ret tt.
Proof. unfold politePause, when. by destruct (0 <? delay cfg)%Z. Qed.

(** An item whose file is not on disk and whose URL is always answered by
    the blocked response: counted as failed; the loop goes on. *)
Lemma processItem_blocked r cfg ref filename url t w :
  blocked r -> dryRun cfg = false -> files w !! filename = None ->
  (forall n, httpGet env n url = GetResponse r) ->
  (processItem env cfg ref filename url t w).1
  = Ret (failed filename ("HTTP " +:+ JsString.ofZ (statusCode r)) (attempted t)).
Proof.
  intros Hb Hdry Hfile Hall.
  change (After (processItem env cfg ref filename url t) w
            (fun o _ => o = Ret (failed filename ("HTTP " +:+ JsString.ofZ (statusCode r))
                                   (attempted t)))).
  unfold processItem. eapply after_step; [by apply fileExists_absent |].
  rewrite !andb_false_r, Hdry. eapply after_step; [reflexivity |].
  eapply after_bind; [by apply (downloadFile_always_blocked r) | | by intros ? ? [? _] | by intros ? [? _]].
  intros s w1 (Hs & _). injection Hs as ->.
  eapply after_next; [by apply recordResult_blocked |].
  eapply after_next; [apply politePause_returns |]. by apply after_ret.
Qed.

Lemma establishSession_returns edition w :
  (establishSession env edition w).1 = Ret (mainPageUrl edition).
Proof.
  unfold establishSession, getBrowserHeaders, getRandomUserAgent, mathRandom, bind,
    tickDraws, getCookieJar, tickRequests, emit, ret. simpl.
  destruct (httpVisit env (requests w) _) as [r | |]; [| done ..].
  unfold extractCookies, when, setCookieJar, ret.
  destruct (setCookie r) as [hs |]; [| done]. by destruct (0 <? _)%nat.
Qed.

Lemma findResumePoint_returns cfg w : exists rp, (findResumePoint cfg w).1 = Ret rp.
Proof.
  unfold findResumePoint. destruct (resume cfg && negb (dryRun cfg)); [| by eexists].
  unfold readdir, bind, getFiles, ret, log, emit. simpl.
  destruct (last _) as [lastFile |]; [| by eexists].
  destruct (matchCoordinate lastFile); by eexists.
Qed.

(** When every GET is answered by the blocked response, no item ends the
    run. *)
Lemma processItem_returns_when_blocked r cfg ref filename url t w :
  blocked r -> (forall n u, httpGet env n u = GetResponse r) ->
  After (processItem env cfg ref filename url t) w (fun o _ => exists t', o = Ret t').
Proof.
  intros Hb Hall. unfold processItem.
  apply after_quiet; [apply quiet_fileExists |]. intros present w1.
  destruct (_ && _ && present); [apply after_ret; eauto |].
  eapply after_bind with (R1 := fun o _ => exists unchanged : bool, o = Ret unchanged).
  - destruct (_ && _ && present); [| apply after_ret; eauto].
    eapply after_conseq; [apply post_after, headCheck_post |].
    intros o w2 (evs & _ & _ & _ & _ & Hret). exact Hret.
  - intros unchanged w2 _. destruct unchanged; [apply after_ret; eauto |].
    destruct (dryRun cfg).
    { eapply after_next; [reflexivity |]. apply after_ret. eauto. }
    eapply after_bind; [by apply (downloadFile_always_blocked r) | | by intros ? ? [? _] | by intros ? [? _]].
    intros s w3 (Hs & _). injection Hs as ->.
    eapply after_next; [by apply recordResult_blocked |].
    eapply after_next; [apply politePause_returns |]. apply after_ret. eauto.
  - by intros code w2 (? & ?).
  - by intros w2 (? & ?).
Qed.

Lemma forEach_returns {A S} (step : S -> A -> M S) xs s w :
  (forall s x w, After (step s x) w (fun o _ => exists s', o = Ret s')) ->
  After (forEach step xs s) w (fun o _ => exists s', o = Ret s').
Proof.
  intros Hstep.
  apply after_forEach with (I := fun _ _ => True); [| by eauto | done].
  intros s0 x w0 _. eapply after_conseq; [apply Hstep |]. by intros o w' (s' & ->).
Qed.

Lemma main_returns_when_blocked r cfg additionalPdfs w :
  blocked r -> (forall n u, httpGet env n u = GetResponse r) ->
  After (main env cfg additionalPdfs) w (fun o _ => exists t, o = Ret t).
Proof.
  intros Hb Hall. unfold main.
  eapply after_next with (a := mainPageUrl (edition cfg));
    [destruct (dryRun cfg); [done | apply establishSession_returns] |].
  eapply after_bind with (R1 := fun o _ => exists t : Totals, o = Ret t).
  - apply forEach_returns. intros t x w0. unfold additionalStep.
    eapply after_step; [reflexivity |]. by apply (processItem_returns_when_blocked r).
  - intros t w1 _. destruct (findResumePoint_returns cfg w1) as (rp & Hrp).
    eapply after_next; [exact Hrp |].
    apply forEach_returns. intros t0 chapter w0. unfold chapterStep.
    destruct (match rp with Some _ => _ | None => _ end); [apply after_ret; eauto |].
    apply forEach_returns. intros t1 heading w2. unfold headingStep.
    destruct (match rp with Some _ => _ | None => _ end); [apply after_ret; eauto |].
    eapply after_step; [reflexivity |]. by apply (processItem_returns_when_blocked r).
  - by intros code w1 (? & ?).
  - by intros w1 (? & ?).
Qed.

(** [downloadPDF] gives up on 403 and 429 after the one request, reports
    an error and writes nothing. *)
Lemma downloadPDF_blocked pageCookies pageUrl url out w r :
  statusCode r = 403%Z \/ statusCode r = 429%Z ->
  validUrl env url = true ->
  httpGet env (requests w) url = GetResponse r ->
  exists h message,
    let end_ := downloadPDF env pageCookies pageUrl url out w in
    end_.1 = Ret false
    /\ files end_.2 = files w
    /\ trace end_.2
       = trace w ++ [EvGet (current w) url h (GetResponse r);
                     EvLog (DownloadError url message)].
Proof.
  intros Hcode Hvalid Hres. unfold downloadPDF. rewrite Hvalid.
  unfold fetchContent, bind, getCurrent, tickRequests, emit, log, ret. simpl.
  rewrite Hres. destruct Hcode as [Hc | Hc]; rewrite Hc; simpl.
  - eexists _, _. split; [done |]. split; [done |]. by rewrite <- app_assoc.
  - eexists _, _. split; [done |]. split; [done |]. by rewrite <- app_assoc.
Qed.

(** The download loop of the browser script counts the link as failed and
    goes on. *)
Lemma linkStep_blocked pageCookies pageUrl cfg count t i pdfUrl url w r :
  statusCode r = 403%Z \/ statusCode r = 429%Z ->
  processUrl env pdfUrl WCO_BASE_URL = Some url -> truthy url = true ->
  validUrl env url = true ->
  files w !! basename env (pathname (parseUrl env url)) = None ->
  bDryRun cfg = false ->
  httpGet env (requests w) url = GetResponse r ->
  (linkStep env pageCookies pageUrl cfg count t (i, pdfUrl) w).1
  = Ret {| bDownloaded := bDownloaded t; bFailed := S (bFailed t); bSkipped := bSkipped t |}.
Proof.
  intros Hcode Hproc Htruthy Hvalid Hfile Hdry Hres.
  unfold linkStep. rewrite Hproc, Htruthy, Hvalid, Hdry.
  unfold bind at 1. unfold setCurrent at 1.
  unfold bind at 1. unfold fileExists, getFiles, bind at 1, ret at 1 2. simpl.
  rewrite Hfile. rewrite bool_decide_eq_false_2 by (by intros [? ?]).
  match goal with |- (bind _ _ ?w0).1 = _ => set (start := w0) end.
  destruct (downloadPDF_blocked pageCookies pageUrl url
              (basename env (pathname (parseUrl env url))) start r Hcode Hvalid Hres)
    as (h & message & Hret & _ & _).
  unfold bind at 1. destruct (downloadPDF _ _ _ _ _ start) as [o w1]. simpl in Hret.
  subst o. unfold when. destruct (_ && _); [| done].
  unfold mathRandom, bind, tickDraws, sleep, emit, ret. done.
Qed.

End Blocked.

(** C5, as the code has it. A GET answered 403 or 429 is handled like any
    other status that is neither 200, 404 nor a redirect. In [downloadFile]
    it is retried after [1000 * attempt] ms while attempts remain, and with
    none left the download settles with that status: against a URL that is
    always answered so, the download makes as many requests as it has
    attempts (one when [retries] is below 1) and settles as failed. [main]
    counts the item as failed and goes on, and a run in which every GET is
    answered so completes. [downloadPDF] does not retry: it makes the one
    request, reports the error, writes no file and returns [false], and the
    download loop of the browser script counts the link as failed and goes
    on. Neither script stops the run. *)
Theorem C5_blocked_is_retried_then_counted_as_failed (env : Env) (r : Response) :
  statusCode r = 403%Z \/ statusCode r = 429%Z ->
  (forall fuel out ref retries maxR attempt url rc prev w,
     (rc < maxR)%nat -> (attempt < retries)%Z ->
     httpGet env (requests w) url = GetResponse r ->
     attemptDownload env (S fuel) out ref retries maxR attempt url rc prev w
     = (createWriteStream out ;;
        _ <- sessionGet env url (refererOf prev ref) ;;
        sleep (inject_Z (1000 * attempt)) ;;
        attemptDownload env fuel out ref retries maxR (attempt + 1) url rc prev) w)
  /\ (forall fuel out ref retries maxR attempt url rc prev w,
        (rc < maxR)%nat -> (retries <= attempt)%Z ->
        httpGet env (requests w) url = GetResponse r ->
        attemptDownload env (S fuel) out ref retries maxR attempt url rc prev w
        = (createWriteStream out ;;
           _ <- sessionGet env url (refererOf prev ref) ;;
           ret (failure (statusCode r) ("HTTP " +:+ JsString.ofZ (statusCode r)))) w)
  /\ (forall url out ref retries w,
        (forall n, httpGet env n url = GetResponse r) ->
        (downloadFile env url out ref retries 5 w).1
        = Ret (failure (statusCode r) ("HTTP " +:+ JsString.ofZ (statusCode r)))
        /\ exists evs,
             trace (downloadFile env url out ref retries 5 w).2 = trace w ++ evs
             /\ getCount evs = Z.to_nat (Z.max 1 retries))
  /\ (forall filename url t w,
        (recordResult filename url
           (failure (statusCode r) ("HTTP " +:+ JsString.ofZ (statusCode r))) t w).1
        = Ret (failed filename ("HTTP " +:+ JsString.ofZ (statusCode r)) t))
  /\ (forall cfg ref filename url t w,
        dryRun cfg = false -> files w !! filename = None ->
        (forall n, httpGet env n url = GetResponse r) ->
        (processItem env cfg ref filename url t w).1
        = Ret (failed filename ("HTTP " +:+ JsString.ofZ (statusCode r)) (attempted t)))
  /\ (forall cfg additionalPdfs dir,
        (forall n u, httpGet env n u = GetResponse r) ->
        exists t, (runMain env cfg additionalPdfs dir).1 = Completed t)
  /\ (forall pageCookies pageUrl url out w,
        validUrl env url = true -> httpGet env (requests w) url = GetResponse r ->
        (downloadPDF env pageCookies pageUrl url out w).1 = Ret false
        /\ files (downloadPDF env pageCookies pageUrl url out w).2 = files w
        /\ outline (trace (downloadPDF env pageCookies pageUrl url out w).2)
           = outline (trace w) ++ [SGet (current w); SLog])
  /\ (forall pageCookies pageUrl browser count bt i pdfUrl url w,
        processUrl env pdfUrl WCO_BASE_URL = Some url -> truthy url = true ->
        validUrl env url = true ->
        files w !! basename env (pathname (parseUrl env url)) = None ->
        bDryRun browser = false ->
        httpGet env (requests w) url = GetResponse r ->
        (linkStep env pageCookies pageUrl browser count bt (i, pdfUrl) w).1
        = Ret {| bDownloaded := bDownloaded bt; bFailed := S (bFailed bt);
                 bSkipped := bSkipped bt |}).
Proof.
  intros Hcode.
  split; [intros; by apply (attemptDownload_blocked_retries env r) |].
  split; [intros; by apply (attemptDownload_blocked_settles env r) |].
  split; [intros; by apply (downloadFile_always_blocked env r) |].
  split; [intros; by apply recordResult_blocked |].
  split; [intros; by apply (processItem_blocked env r) |].
  split.
  { intros cfg additionalPdfs dir Hall.
    destruct (main_returns_when_blocked env r cfg additionalPdfs (initialWorld dir) Hcode Hall)
      as (t & Ht).
    exists t. unfold runMain. destruct (main _ _ _ _) as [o w']. simpl in *. by subst o. }
  split.
  { intros pageCookies pageUrl url out w Hvalid Hres.
    destruct (downloadPDF_blocked env pageCookies pageUrl url out w r Hcode Hvalid Hres)
      as (h & message & Hret & Hfiles & Htrace).
    split; [done |]. split; [done |]. unfold outline. by rewrite Htrace, fmap_app. }
  intros. by eapply linkStep_blocked.
Qed.

Lemma C5_blocked_witness :
  (statusCode (Scenario.plain 403 "Forbidden") = 403%Z
   \/ statusCode (Scenario.plain 403 "Forbidden") = 429%Z)
  /\ attemptDownload Scenario.allForbidden 8 "0101_2022e.pdf" "ref" 3 5 1
       (buildUrl "2022" 1 "01") 0 "" (initialWorld ∅)
     = (createWriteStream "0101_2022e.pdf" ;;
        _ <- sessionGet Scenario.allForbidden (buildUrl "2022" 1 "01") (refererOf "" "ref") ;;
        sleep (inject_Z (1000 * 1)) ;;
        attemptDownload Scenario.allForbidden 7 "0101_2022e.pdf" "ref" 3 5 (1 + 1)
          (buildUrl "2022" 1 "01") 0 "") (initialWorld ∅)
  /\ attemptDownload Scenario.allForbidden 6 "0101_2022e.pdf" "ref" 3 5 3
       (buildUrl "2022" 1 "01") 0 "" Scenario.warmedUp
     = (createWriteStream "0101_2022e.pdf" ;;
        _ <- sessionGet Scenario.allForbidden (buildUrl "2022" 1 "01") (refererOf "" "ref") ;;
        ret (failure 403 "HTTP 403")) Scenario.warmedUp
  /\ ((downloadFile Scenario.allForbidden (buildUrl "2022" 1 "01") "0101_2022e.pdf" "ref" 3 5
         (initialWorld ∅)).1
      = Ret (failure 403 "HTTP 403")
      /\ exists evs,
           trace (downloadFile Scenario.allForbidden (buildUrl "2022" 1 "01")
                    "0101_2022e.pdf" "ref" 3 5 (initialWorld ∅)).2
           = trace (initialWorld ∅) ++ evs
           /\ getCount evs = 3)
  /\ (processItem Scenario.allForbidden Scenario.chapterOne "ref" "0101_2022e.pdf"
        (buildUrl "2022" 1 "01") noTotals (initialWorld ∅)).1
     = Ret (failed "0101_2022e.pdf" "HTTP 403" (attempted noTotals))
  /\ (exists t,
        (runMain Scenario.allForbidden Scenario.chapterOne DEFAULT_ADDITIONAL_PDFS ∅).1
        = Completed t)
  /\ ((downloadPDF Scenario.allForbidden [] "page" (buildUrl "2022" 1 "01") "0101_2022e.pdf"
         (initialWorld ∅)).1 = Ret false
      /\ files (downloadPDF Scenario.allForbidden [] "page" (buildUrl "2022" 1 "01")
                  "0101_2022e.pdf" (initialWorld ∅)).2 = files (initialWorld ∅)
      /\ outline (trace (downloadPDF Scenario.allForbidden [] "page" (buildUrl "2022" 1 "01")
                           "0101_2022e.pdf" (initialWorld ∅)).2)
         = outline (trace (initialWorld ∅)) ++ [SGet (current (initialWorld ∅)); SLog])
  /\ (linkStep Scenario.allForbidden [] "page" {| bDelay := 0; bDryRun := false |} 1
        {| bDownloaded := 0; bFailed := 0; bSkipped := 0 |}
        (0, buildUrl "2022" 1 "01") (initialWorld ∅)).1
     = Ret {| bDownloaded := 0; bFailed := 1; bSkipped := 0 |}.
Proof.
  split; [by left |].
  destruct (C5_blocked_is_retried_then_counted_as_failed Scenario.allForbidden
              (Scenario.plain 403 "Forbidden") (or_introl eq_refl))
    as (Hretry & Hsettle & Hdownload & _ & Hitem & Hrun & Hpdf & Hlink).
  split; [apply Hretry; (lia || reflexivity) |].
  split; [apply (Hsettle 5 "0101_2022e.pdf" "ref" 3%Z 5 3%Z); (lia || reflexivity) |].
  split; [apply Hdownload; reflexivity |].
  split; [apply Hitem; reflexivity |].
  split; [apply Hrun; reflexivity |].
  split; [apply Hpdf; reflexivity |].
  eapply Hlink; reflexivity.
Defined.

(** C5 fails on the code: with every GET answered 403 and three attempts
    allowed, the introduction is requested three times, with a pause between
    the attempts, and then reported as failed; the run goes on with the
    grid, through all 99 headings, and completes with 100 items counted as
    failed. *)
Lemma C5_counterexample_blocked_run_completes :
  (exists t,
     (runMain Scenario.allForbidden Scenario.chapterOne DEFAULT_ADDITIONAL_PDFS ∅).1
     = Completed t
     /\ totalAttempted t = 100 /\ totalFailed t = 100 /\ totalSkipped t = 0
     /\ head (statsFailed t) = Some ("introduction_2022e.pdf", "HTTP 403"))
  /\ take 10 (outline (trace (runMain Scenario.allForbidden Scenario.chapterOne
                                DEFAULT_ADDITIONAL_PDFS ∅).2))
     = [SVisit;
        SGet (Additional "introduction_2022e.pdf"); SSleep;
        SGet (Additional "introduction_2022e.pdf"); SSleep;
        SGet (Additional "introduction_2022e.pdf"); SLog;
        SGet (Grid 1 "01"); SSleep; SGet (Grid 1 "01")].
Proof.
  split.
  - eexists. split; [vm_compute; reflexivity |]. repeat split; vm_compute; reflexivity.
  - vm_compute. reflexivity.
Qed.

(** ** The retry policy *)

Section RetryOutcomes.

Variable env : Env.





End RetryOutcomes.




(** ** Change detection in the batch loop *)

Section Unchanged.

Variable env : Env.
Variable cfg : Config.

Lemma yields_fileExists path w :
  Yields (fileExists path) w (Ret (bool_decide (is_Some (files w !! path)))) w [].
Proof. unfold Yields, fileExists, getFiles, bind, ret. by rewrite app_nil_r. Qed.

(** The remote size read from a decimal [Content-Length], and from an
    absent one. *)
Lemma remoteSizeOf_decimal (r : Response) (n : nat) :
  contentLength r = Some (JsString.ofNat n) -> remoteSizeOf r = Some (Z.of_nat n).
Proof.
  intros Hcl. unfold remoteSizeOf. rewrite Hcl.
  assert (truthy (JsString.ofNat n) = true) as ->.
  { unfold JsString.ofNat. by destruct (Nat.to_uint n). }
  apply parseInt_ofNat.
Qed.

Lemma remoteSizeOf_absent (r : Response) :
  contentLength r = None -> remoteSizeOf r = Some 0%Z.
Proof. intros Hcl. unfold remoteSizeOf. by rewrite Hcl. Qed.

(** A HEAD answered 200 with the size of the local file: unchanged. *)
Lemma checkFileChanged_same_size url path content r w :
  files w !! path = Some content ->
  httpHead env (requests w) url = ProbeResponse r ->
  statusCode r = 200%Z ->
  remoteSizeOf r = Some (Z.of_nat (String.length content)) ->
  exists h w',
    Yields (checkFileChanged env url path 5) w (Ret false) w'
      [EvHead (current w) url h (ProbeResponse r)]
    /\ files w' = files w.
Proof.
  intros Hfile Hhead H200 Hsize.
  unfold Yields, checkFileChanged. simpl.
  unfold sessionHead, getBrowserHeaders, getRandomUserAgent, mathRandom, bind, tickDraws,
    getCookieJar, getCurrent, tickRequests, emit, getLocalFileSize, getFiles, ret. simpl.
  rewrite Hhead, H200. simpl. rewrite Hfile. simpl. rewrite Hsize. simpl.
  rewrite Z.eqb_refl. simpl. by eexists _, _.
Qed.

(** The file is on disk and the server reports its size: the item is
    counted as skipped, and no GET is issued. With [skipExisting] nothing
    is requested at all. *)
Lemma processItem_unchanged ref filename url t w content r :
  dryRun cfg = false ->
  skipExisting cfg = true \/ checkExisting cfg = true ->
  files w !! filename = Some content ->
  (forall n, httpHead env n url = ProbeResponse r) ->
  statusCode r = 200%Z ->
  remoteSizeOf r = Some (Z.of_nat (String.length content)) ->
  Post (processItem env cfg ref filename url t) w
    (fun o w' evs =>
       o = Ret (skipped (attempted t))
       /\ Forall (fun e => isGet e = false) evs
       /\ files w' = files w
       /\ (skipExisting cfg = true -> evs = [])).
Proof.
  intros Hdry Hmode Hfile Hhead H200 Hsize. unfold processItem.
  apply post_bind. eapply post_yields; [apply yields_fileExists |]. intros _.
  rewrite Hfile, Hdry, bool_decide_eq_true_2 by eauto. simpl.
  destruct (skipExisting cfg) eqn:Hskip; simpl.
  { apply post_ret. by repeat split. }
  destruct Hmode as [? | Hcheck]; [done |]. rewrite Hcheck. simpl.
  apply post_bind. unfold headCheck. apply post_bind.
  assert (Hpause : Post (when (0 <? delay cfg)%Z
              (headDelay <- getRandomDelay env (inject_Z (delay cfg) / 2)
                              (inject_Z (delayVariation cfg) / 2) ;;
               sleep headDelay)) w
            (fun o w1 evs1 => o = Ret tt /\ files w1 = files w
                              /\ Forall (fun e => isGet e = false) evs1)).
  { unfold when. destruct (0 <? delay cfg)%Z.
    - apply post_bind, post_getRandomDelay. intros n w1 _ Hf1 _.
      apply post_emit. intros w2 _ Hf2 _.
      split; [done |]. split; [congruence | by repeat constructor].
    - apply post_ret. split; [done |]. split; [done | constructor]. }
  eapply post_conseq; [exact Hpause |].
  intros o w1 evs1 (-> & Hf1 & Hg1) _.
  apply post_bind.
  destruct (checkFileChanged_same_size url filename content r w1) as (h & w2 & H2 & Hf2);
    [by rewrite Hf1 | done | done | done |].
  eapply post_yields; [exact H2 |]. intros _.
  apply post_ret. simpl. intros _. apply post_ret. rewrite !app_nil_r.
  split; [done |]. split; [| split; [congruence | done]].
  apply Forall_app_2; [done | by repeat constructor].
Qed.

End Unchanged.

(** ** Pacing *)

Section Pacing.

Variable env : Env.
Variable cfg : Config.















End Pacing.




Lemma C2_mandatory_404_witness :
  (runMain Scenario.allAbsent Scenario.chapterOne DEFAULT_ADDITIONAL_PDFS ∅).1 = Aborted 1
  /\ (exists pre,
        trace (runMain Scenario.allAbsent Scenario.chapterOne DEFAULT_ADDITIONAL_PDFS ∅).2
        = pre ++ [Scenario.introductionGet;
                  EvLog (NotFound "introduction_2022e.pdf"
                           (buildAdditionalUrl (edition Scenario.chapterOne)
                              "introduction_2022e.pdf"))])
  /\ Forall (fun e' => forall chapter heading, tagOf e' <> Some (Grid chapter heading))
       (trace (runMain Scenario.allAbsent Scenario.chapterOne DEFAULT_ADDITIONAL_PDFS ∅).2).
Proof.
  apply (C2_mandatory_404_aborts_run Scenario.allAbsent Scenario.chapterOne
           DEFAULT_ADDITIONAL_PDFS ∅ Scenario.introductionGet "introduction_2022e.pdf").
  - apply list_elem_of_In. vm_compute. right. left. reflexivity.
  - reflexivity.
  - reflexivity.
Defined.

(** C7 on the code: [checkFileChanged] reads the remote size as
    [parseInt(headers['content-length'] || '0', 10)], so a HEAD answered 200
    without a [Content-Length] header, or with an empty one, reports 0 bytes.
    An empty local file is then found unchanged, for every server and every
    directory: the detector answers [false] and the batch loop counts the
    item as skipped and never issues a GET for it, although no remote length
    equals the local size. Such an empty file is what a download answered 403
    leaves behind. On the run over chapter 1: heading 01 is probed by HEAD
    and passed over, the next request is the GET for heading 02, and the
    empty file is still there when the run has completed. *)
Theorem C7_missing_length_keeps_empty_file :
  (forall (env : Env) url path w r,
     files w !! path = Some "" ->
     httpHead env (requests w) url = ProbeResponse r ->
     statusCode r = 200%Z ->
     contentLength r = None \/ contentLength r = Some "" ->
     (checkFileChanged env url path 5 w).1 = Ret false)
  /\ (forall (env : Env) cfg ref filename url t w r,
        dryRun cfg = false -> skipExisting cfg = false -> checkExisting cfg = true ->
        files w !! filename = Some "" ->
        (forall n, httpHead env n url = ProbeResponse r) ->
        statusCode r = 200%Z ->
        contentLength r = None \/ contentLength r = Some "" ->
        (processItem env cfg ref filename url t w).1 = Ret (skipped (attempted t))
        /\ files (processItem env cfg ref filename url t w).2 = files w
        /\ exists evs,
             trace (processItem env cfg ref filename url t w).2 = trace w ++ evs
             /\ Forall (fun e => isGet e = false) evs)
  /\ contentLength (Scenario.plain 200 "") = None
  /\ files (runMain Scenario.allForbidden Scenario.chapterOne DEFAULT_ADDITIONAL_PDFS ∅).2
     !! "0101_2022e.pdf" = Some ""
  /\ Scenario.emptyStub !! "0101_2022e.pdf" = Some ""
  /\ (checkFileChanged Scenario.noLength (buildUrl "2022" 1 "01") "0101_2022e.pdf" 5
        (initialWorld Scenario.emptyStub)).1 = Ret false
  /\ (checkFileChanged Scenario.emptyLength (buildUrl "2022" 1 "01") "0101_2022e.pdf" 5
        (initialWorld Scenario.emptyStub)).1 = Ret false
  /\ (exists t,
        (runMain Scenario.noLength Scenario.chapterOne DEFAULT_ADDITIONAL_PDFS
           Scenario.emptyStub).1 = Completed t
        /\ totalSkipped t = 1 /\ totalDownloaded t = 99)
  /\ take 6 (outline (trace (runMain Scenario.noLength Scenario.chapterOne
                               DEFAULT_ADDITIONAL_PDFS Scenario.emptyStub).2))
     = [SVisit; SGet (Additional "introduction_2022e.pdf"); SLog;
        SHead (Grid 1 "01"); SGet (Grid 1 "02"); SLog]
  /\ files (runMain Scenario.noLength Scenario.chapterOne DEFAULT_ADDITIONAL_PDFS
              Scenario.emptyStub).2 !! "0101_2022e.pdf" = Some "".
Proof.
  assert (Hzero : forall r : Response,
             contentLength r = None \/ contentLength r = Some "" ->
             remoteSizeOf r = Some (Z.of_nat (String.length ""))).
  { intros r [Hcl | Hcl]; unfold remoteSizeOf; by rewrite Hcl. }
  split.
  { intros env url path w r Hfile Hhead H200 Hcl.
    destruct (checkFileChanged_same_size env url path "" r w Hfile Hhead H200 (Hzero r Hcl))
      as (h & w' & (E & _) & _). by rewrite E. }
  split.
  { intros env cfg ref filename url t w r Hdry Hskip Hcheck Hfile Hhead H200 Hcl.
    destruct (processItem_unchanged env cfg ref filename url t w "" r Hdry
                (or_intror Hcheck) Hfile Hhead H200 (Hzero r Hcl))
      as (o & w' & evs & (E & T & _) & -> & Hg & Hf & _).
    rewrite E. simpl. split; [done |]. split; [done |]. by exists evs. }
  split; [reflexivity |].
  split; [vm_compute; reflexivity |].
  split; [vm_compute; reflexivity |].
  split; [vm_compute; reflexivity |].
  split; [vm_compute; reflexivity |].
  split; [eexists; split; [vm_compute; reflexivity |]; split; vm_compute; reflexivity |].
  split; vm_compute; reflexivity.
Qed.

(** ** The cookie jar *)

Section Cookies.

Variable env : Env.

Lemma extractCookies_jar (r : Response) (w : World) :
  cookieJar (extractCookies r w).2
  = match setCookie r with
    | Some setCookieHeaders =>
        match cookiePairs setCookieHeaders with
        | [] => cookieJar w
        | pairs => JsString.join "; " pairs
        end
    | None => cookieJar w
    end.
Proof.
  unfold extractCookies. destruct (setCookie r) as [hs |]; [| done].
  by destruct (cookiePairs hs).
Qed.

(** A GET leaves in the jar what [extractCookies] makes of its response. *)
Lemma sessionGet_jar url ref w r :
  httpGet env (requests w) url = GetResponse r ->
  cookieJar (sessionGet env url ref w).2 = cookieJar (extractCookies r w).2.
Proof.
  intros Hres.
  unfold sessionGet, getBrowserHeaders, getRandomUserAgent, mathRandom, bind, tickDraws,
    getCookieJar, getCurrent, tickRequests, emit, ret. simpl. rewrite Hres.
  unfold extractCookies, when, setCookieJar, ret.
  destruct (setCookie r) as [hs |]; [| done].
  by destruct (0 <? _)%nat.
Qed.

End Cookies.

(** The pairs kept from header lines: the text before the first semicolon,
    trimmed; a line without such a text gives none. *)
Example cookiePairs_sample :
  cookiePairs ["sid=42; Path=/; HttpOnly"; " lang=en "; "; Secure"] = ["sid=42"; "lang=en"].
Proof. reflexivity. Qed.

(** C10, as the code has it. A response whose [Set-Cookie] lines yield at
    least one non-empty name=value text replaces the jar by exactly those
    texts, joined by "; ", whatever the jar held before; a response without
    [Set-Cookie] header, and one whose lines all have an empty name=value
    part, leave the jar as it was. The same holds of the jar after a GET of
    the session. *)
Theorem C10_cookie_jar_replaced (env : Env) (r silent bare : Response)
    (hs lines : list string) (w before : World) (url ref : string) :
  setCookie r = Some hs -> cookiePairs hs <> [] ->
  setCookie silent = None ->
  setCookie bare = Some lines -> cookiePairs lines = [] ->
  httpGet env (requests w) url = GetResponse r ->
  cookieJar (extractCookies r w).2 = JsString.join "; " (cookiePairs hs)
  /\ cookieJar (extractCookies r before).2 = JsString.join "; " (cookiePairs hs)
  /\ cookieJar (extractCookies silent w).2 = cookieJar w
  /\ cookieJar (extractCookies bare w).2 = cookieJar w
  /\ cookieJar (sessionGet env url ref w).2 = JsString.join "; " (cookiePairs hs).
Proof.
  intros Hr Hpairs Hsilent Hbare Hnone Hres.
  assert (Hjar : forall w0, cookieJar (extractCookies r w0).2
                            = JsString.join "; " (cookiePairs hs)).
  { intros w0. rewrite extractCookies_jar, Hr. by destruct (cookiePairs hs). }
  split; [apply Hjar |]. split; [apply Hjar |].
  split; [by rewrite extractCookies_jar, Hsilent |].
  split; [by rewrite extractCookies_jar, Hbare, Hnone |].
  by rewrite (sessionGet_jar env url ref w r Hres).
Qed.

Lemma C10_cookie_jar_witness :
  cookieJar (extractCookies Scenario.twoCookies Scenario.warmedUp).2
  = JsString.join "; " (cookiePairs ["sid=42; Path=/; HttpOnly"; " lang=en "])
  /\ cookieJar (extractCookies Scenario.twoCookies (initialWorld ∅)).2
     = JsString.join "; " (cookiePairs ["sid=42; Path=/; HttpOnly"; " lang=en "])
  /\ cookieJar (extractCookies (Scenario.plain 200 "") Scenario.warmedUp).2
     = cookieJar Scenario.warmedUp
  /\ cookieJar (extractCookies Scenario.attributesOnly Scenario.warmedUp).2
     = cookieJar Scenario.warmedUp
  /\ cookieJar (sessionGet Scenario.cookieServer "u" "referer" Scenario.warmedUp).2
     = JsString.join "; " (cookiePairs ["sid=42; Path=/; HttpOnly"; " lang=en "]).
Proof.
  apply (C10_cookie_jar_replaced Scenario.cookieServer Scenario.twoCookies
           (Scenario.plain 200 "") Scenario.attributesOnly
           ["sid=42; Path=/; HttpOnly"; " lang=en "] ["; Path=/; HttpOnly"]
           Scenario.warmedUp (initialWorld ∅) "u" "referer").
  - reflexivity.
  - discriminate.
  - reflexivity.
  - reflexivity.
  - reflexivity.
  - reflexivity.
Defined.

(** C10 fails on the code: a response that carries a [Set-Cookie] header
    whose name=value part is empty has no pair to offer, and the jar keeps
    the cookie of the earlier response instead of becoming empty. *)
Lemma C10_counterexample_bare_header_keeps_jar :
  setCookie Scenario.attributesOnly = Some ["; Path=/; HttpOnly"]
  /\ cookiePairs ["; Path=/; HttpOnly"] = []
  /\ JsString.join "; " (cookiePairs ["; Path=/; HttpOnly"]) = ""
  /\ cookieJar Scenario.warmedUp = "ASP.NET_SessionId=abc"
  /\ cookieJar (extractCookies Scenario.attributesOnly Scenario.warmedUp).2
     = "ASP.NET_SessionId=abc".
Proof. repeat split; reflexivity. Qed.

(** ** Where the code departs from its documentation *)

Section Observed.

Variable env : Env.

(** Any GET answered 404, for an additional document or a grid item, ends
    the run with exit code 1 right after its report. *)
Lemma any_404_aborts_run (cfg : Config) (additionalPdfs : list string)
    (dir : gmap string string) (e : Event) :
  e ∈ trace (runMain env cfg additionalPdfs dir).2 ->
  answered 404 e ->
  (runMain env cfg additionalPdfs dir).1 = Aborted 1
  /\ exists pre item,
       tagOf e = Some item
       /\ trace (runMain env cfg additionalPdfs dir).2
          = pre ++ [e; EvLog (notFoundReport cfg item)].
Proof.
  intros He Ha. unfold runMain in *.
  destruct (main_spec env cfg additionalPdfs (initialWorld dir))
    as (o & w' & evs & (E & T) & Hstop & _ & _).
  rewrite E in *. simpl in *. rewrite T in *. simpl in *.
  destruct (Hstop e He Ha) as (-> & pre & item & Hitem & ->). eauto.
Qed.

(** [downloadFile] keeps the body of a 200 response whatever it holds. *)
Lemma downloadFile_keeps_any_body url out ref retries w r :
  httpGet env (requests w) url = GetResponse r -> statusCode r = 200%Z ->
  (downloadFile env url out ref retries 5 w).1
  = Ret (Resolved {| success := true; status := None; error := None;
                     size := Some (String.length (body r)) |})
  /\ files (downloadFile env url out ref retries 5 w).2 !! out = Some (body r).
Proof.
  intros Hres H200. unfold downloadFile, downloadBudget.
  rewrite attemptDownload_unfold, get_then by lia. rewrite Hres. simpl. rewrite H200. simpl.
  unfold bind, createWriteStream, writeFile, sessionGet, getBrowserHeaders,
    getRandomUserAgent, mathRandom, bind, tickDraws, getCookieJar, getCurrent, tickRequests,
    emit, getFiles, setFiles, ret. simpl. rewrite Hres.
  unfold extractCookies, when, setCookieJar, ret.
  destruct (setCookie r) as [hs |]; [destruct (0 <? _)%nat |]; simpl;
    by rewrite lookup_insert_eq.
Qed.

(** [downloadPDF] writes a file only when the content begins with the PDF
    signature; otherwise the directory is left as it was. *)
Lemma downloadPDF_writes_only_pdf pageCookies pageUrl url out w :
  ((downloadPDF env pageCookies pageUrl url out w).1 = Ret true
   /\ exists content,
        String.prefix "%PDF" content = true
        /\ files (downloadPDF env pageCookies pageUrl url out w).2
           = <[out := content]> (files w))
  \/ ((downloadPDF env pageCookies pageUrl url out w).1 = Ret false
      /\ files (downloadPDF env pageCookies pageUrl url out w).2 = files w).
Proof.
  unfold downloadPDF. destruct (validUrl env url); [| by right].
  unfold fetchContent, bind, getCurrent, tickRequests, emit, log, writeFile, getFiles,
    setFiles, ret. simpl.
  destruct (httpGet env (requests w) url) as [r | message]; [| by right].
  destruct (statusCode r =? 404)%Z; [by right |].
  destruct (statusCode r =? 403)%Z; [by right |].
  destruct (statusCode r =? 429)%Z; [by right |].
  destruct (negb (statusCode r =? 200)%Z); [by right |]. simpl.
  destruct (String.length (body r) =? 0)%nat; [by right |].
  destruct (String.length (body r) <? 4)%nat; [by right |]. simpl.
  destruct (String.prefix "%PDF" (body r)) eqn:Hpdf; [| by right]. simpl.
  left. split; [done |]. by exists (body r).
Qed.

End Observed.

(** C1 on the code: with the introduction on the server and no
    chapter/heading file, the GET for chapter 1 heading 01 is answered 404
    and the run ends there, aborted with exit code 1: heading 02 is never
    requested and nothing is counted as skipped. *)
Theorem C1_grid_404_aborts_run :
  (runMain Scenario.gridAbsent Scenario.chapterOne DEFAULT_ADDITIONAL_PDFS ∅).1 = Aborted 1
  /\ outline (trace (runMain Scenario.gridAbsent Scenario.chapterOne
                       DEFAULT_ADDITIONAL_PDFS ∅).2)
     = [SVisit; SGet (Additional "introduction_2022e.pdf"); SLog; SGet (Grid 1 "01"); SLog]
  /\ last (trace (runMain Scenario.gridAbsent Scenario.chapterOne
                    DEFAULT_ADDITIONAL_PDFS ∅).2)
     = Some (EvLog (NotFound "0101_2022e.pdf" (buildUrl "2022" 1 "01"))).
Proof. split; [| split]; vm_compute; reflexivity. Qed.

(** C3 on the code: a 200 response whose body is an HTML page is written by
    [downloadFile] to the target path and reported as a success with its
    size; a run over chapter 1 against such a server counts 99 downloads and
    leaves the page on disk under the name of a PDF. *)
Theorem C3_direct_fetch_keeps_non_pdf :
  (downloadFile Scenario.allHtml (buildUrl "2022" 1 "01") "0101_2022e.pdf" "referer" 3 5
     (initialWorld ∅)).1
  = Ret (Resolved {| success := true; status := None; error := None; size := Some 39 |})
  /\ files (downloadFile Scenario.allHtml (buildUrl "2022" 1 "01") "0101_2022e.pdf"
              "referer" 3 5 (initialWorld ∅)).2 !! "0101_2022e.pdf"
     = Some Scenario.htmlPage
  /\ String.prefix "%PDF" Scenario.htmlPage = false
  /\ (exists t, (runMain Scenario.allHtml Scenario.chapterOne [] ∅).1 = Completed t
                /\ totalDownloaded t = 99 /\ totalFailed t = 0)
  /\ files (runMain Scenario.allHtml Scenario.chapterOne [] ∅).2 !! "0101_2022e.pdf"
     = Some Scenario.htmlPage.
Proof.
  split; [vm_compute; reflexivity |]. split; [vm_compute; reflexivity |].
  split; [reflexivity |]. split; [| vm_compute; reflexivity].
  eexists. split; [vm_compute; reflexivity |]. split; vm_compute; reflexivity.
Qed.

(** ** The resume cursor *)

Section Resume.

Variable env : Env.
Variable cfg : Config.

Lemma parseInt_headingCode (n : nat) :
  1 <= n <= 99 -> JsString.parseInt (headingCode n) = Some (Z.of_nat n).
Proof.
  intros Hn.
  assert (Hall : forallb (fun k => bool_decide (JsString.parseInt (headingCode k)
                                                = Some (Z.of_nat k))) (seq 1 99) = true)
    by (vm_compute; reflexivity).
  rewrite forallb_forall in Hall.
  eapply bool_decide_eq_true_1, Hall, in_seq. lia.
Qed.

(** Given a cursor, a chapter before it is passed over without any effect. *)
Lemma chapterStep_before_cursor ref rp t chapter w :
  chapter < rpChapter rp ->
  chapterStep env cfg ref (Some rp) t chapter w = (Ret t, w).
Proof.
  intros Hlt. unfold chapterStep. apply Nat.ltb_lt in Hlt. by rewrite Hlt.
Qed.

(** Given a cursor, a heading of its chapter at or before it is passed over
    without any effect. *)
Lemma headingStep_at_or_before_cursor ref rp t n w :
  1 <= n <= 99 -> n <= rpHeading rp ->
  headingStep env cfg ref (Some rp) (rpChapter rp) t (headingCode n) w = (Ret t, w).
Proof.
  intros Hn Hle. unfold headingStep, headingReached.
  rewrite parseInt_headingCode, Nat.eqb_refl by done. simpl.
  assert ((Z.of_nat n <=? Z.of_nat (rpHeading rp))%Z = true) as -> by lia. done.
Qed.

End Resume.

(** With no additional document to fetch first, the cursor is found and the
    first request of the grid is the GET for heading 06. *)
Example resume_without_additional_documents :
  (findResumePoint Scenario.resuming (initialWorld Scenario.fiveHeadings)).1
  = Ret (Some {| rpChapter := 1; rpHeading := 5 |})
  /\ take 4 (outline (trace (runMain Scenario.allPresent Scenario.resuming []
                               Scenario.fiveHeadings).2))
     = [SVisit; SLog; SGet (Grid 1 "06"); SLog].
Proof. split; vm_compute; reflexivity. Qed.

(** C8 on the code: the output directory holds headings 01 to 05 of chapter
    1 and the run is started with [--resume]. The introduction is fetched
    first, into the same directory; the last of the sorted [.pdf] names is
    then [introduction_2022e.pdf], which is no coordinate name, so no cursor
    is set and HEAD requests are issued for headings 01 to 05. *)
Theorem C8_resume_cursor_lost_to_named_file :
  take 10 (outline (trace (runMain Scenario.allPresent Scenario.resuming
                             DEFAULT_ADDITIONAL_PDFS Scenario.fiveHeadings).2))
  = [SVisit; SGet (Additional "introduction_2022e.pdf"); SLog;
     SHead (Grid 1 "01"); SHead (Grid 1 "02"); SHead (Grid 1 "03"); SHead (Grid 1 "04");
     SHead (Grid 1 "05"); SGet (Grid 1 "06"); SLog]
  /\ last (sortStrings (List.filter (JsString.endsWith ".pdf")
                          (fst <$> map_to_list Scenario.fiveHeadingsAndIntroduction)))
     = Some "introduction_2022e.pdf"
  /\ matchCoordinate "introduction_2022e.pdf" = None
  /\ (findResumePoint Scenario.resuming
        (initialWorld Scenario.fiveHeadingsAndIntroduction)).1 = Ret None
  /\ (findResumePoint Scenario.resuming (initialWorld Scenario.fiveHeadings)).1
     = Ret (Some {| rpChapter := 1; rpHeading := 5 |}).
Proof. repeat split; vm_compute; reflexivity. Qed.

(** ** Final states *)

Section Sequencing.

Lemma after_any {A} (m : M A) w : After m w (fun _ _ => True).
Proof. done. Qed.

(** What follows an operation whose result is not looked at. *)
Lemma after_then {A B} (m : M A) (f : A -> M B) w (R : Outcome B -> World -> Prop) :
  (forall a w1, After (f a) w1 R) ->
  (forall code w1, R (Exit code) w1) -> (forall w1, R Stuck w1) ->
  After (bind m f) w R.
Proof. intros. eapply after_bind; [apply after_any | ..]; eauto. Qed.

End Sequencing.

(** ** The counters of the summary *)

Section Counters.

Variable env : Env.
Variable cfg : Config.

Lemma balanced_noTotals : balanced noTotals.
Proof. unfold balanced. simpl. lia. Qed.

Lemma balanced_skipped t : balanced t -> balanced (skipped (attempted t)).
Proof. unfold balanced. simpl. lia. Qed.

Lemma balanced_wouldDownload t : balanced t -> balanced (wouldDownload (attempted t)).
Proof. unfold balanced. simpl. lia. Qed.

Lemma balanced_downloaded f t : balanced t -> balanced (downloaded f (attempted t)).
Proof. unfold balanced. simpl. rewrite length_app. simpl. lia. Qed.

Lemma balanced_failed f msg t : balanced t -> balanced (failed f msg (attempted t)).
Proof. unfold balanced. simpl. rewrite length_app. simpl. lia. Qed.

Lemma recordResult_balance filename url s t w :
  balanced t ->
  After (recordResult filename url s (attempted t)) w keepsBalance.
Proof.
  intros Ht. unfold recordResult, log, keepsBalance.
  destruct s as [result | message].
  - destruct (success result).
    { intros t' [= <-]. by apply balanced_downloaded. }
    case_bool_decide; [done |]. intros t' [= <-]. by apply balanced_failed.
  - intros t' [= <-]. by apply balanced_failed.
Qed.

Lemma processItem_balance ref filename url t w :
  balanced t -> After (processItem env cfg ref filename url t) w keepsBalance.
Proof.
  intros Ht. unfold processItem.
  apply after_then; [| done ..]. intros present w1.
  destruct (_ && _ && present).
  { apply after_ret. intros t' [= <-]. by apply balanced_skipped. }
  apply after_then; [| done ..]. intros unchanged w2.
  destruct unchanged.
  { apply after_ret. intros t' [= <-]. by apply balanced_skipped. }
  destruct (dryRun cfg).
  { apply after_then; [| done ..]. intros [] w3.
    apply after_ret. intros t' [= <-]. by apply balanced_wouldDownload. }
  apply after_then; [| done ..]. intros s w3.
  eapply after_bind; [by apply recordResult_balance | | done ..].
  intros t1 w4 H1. apply after_then; [| done ..]. intros [] w5.
  apply after_ret. intros t' [= <-]. by apply H1.
Qed.

Lemma loop_balance {A} (step : Totals -> A -> M Totals) xs t w :
  (forall t x w, balanced t -> After (step t x) w keepsBalance) ->
  balanced t -> After (forEach step xs t) w keepsBalance.
Proof.
  intros Hstep Ht.
  apply after_forEach with (I := fun t _ => balanced t); [| | done].
  - intros t0 x w0 H0. eapply after_conseq; [by apply Hstep |].
    intros [t' | code |] w' H; [by apply H | done ..].
  - intros t0 w0 H0 t' [= <-]. done.
Qed.

Lemma chapterStep_balance ref resumeFrom t chapter w :
  balanced t -> After (chapterStep env cfg ref resumeFrom t chapter) w keepsBalance.
Proof.
  intros Ht. unfold chapterStep.
  destruct (match resumeFrom with Some _ => _ | None => _ end).
  { apply after_ret. by intros t' [= <-]. }
  apply loop_balance; [| done]. clear t w Ht. intros t heading w Ht.
  unfold headingStep. destruct (match resumeFrom with Some _ => _ | None => _ end).
  { apply after_ret. by intros t' [= <-]. }
  apply after_then; [| done ..]. intros [] w1. by apply processItem_balance.
Qed.

Lemma main_balance additionalPdfs w : After (main env cfg additionalPdfs) w keepsBalance.
Proof.
  unfold main. apply after_then; [| done ..]. intros ref w1.
  eapply after_bind; [| | done ..].
  { apply loop_balance; [| apply balanced_noTotals]. intros t x w0 Ht.
    unfold additionalStep. apply after_then; [| done ..]. intros [] w2.
    by apply processItem_balance. }
  intros t w2 Ht. apply after_then; [| done ..]. intros resumeFrom w3.
  apply loop_balance; [| by apply Ht]. intros. by apply chapterStep_balance.
Qed.

End Counters.

(** X1. When [main] returns, the counters of its summary add up: every item
    counted as attempted was counted exactly once as downloaded, failed or
    skipped; [stats.failed] lists one entry per counted failure and
    [stats.downloaded] at most one per counted download. *)
Theorem main_summary_adds_up (env : Env) (cfg : Config) (additionalPdfs : list string)
    (w : World) (t : Totals) :
  (main env cfg additionalPdfs w).1 = Ret t ->
  totalAttempted t = totalDownloaded t + totalFailed t + totalSkipped t
  /\ List.length (statsFailed t) = totalFailed t
  /\ List.length (statsDownloaded t) <= totalDownloaded t.
Proof. intros H. by apply (main_balance env cfg additionalPdfs w). Qed.

Lemma main_summary_adds_up_witness :
  exists t,
    (main Scenario.allForbidden Scenario.chapterOne DEFAULT_ADDITIONAL_PDFS
       (initialWorld Scenario.oneHeading)).1 = Ret t
    /\ totalAttempted t = 100 /\ totalFailed t = 100
    /\ totalAttempted t = totalDownloaded t + totalFailed t + totalSkipped t
    /\ List.length (statsFailed t) = totalFailed t
    /\ List.length (statsDownloaded t) <= totalDownloaded t.
Proof.
  eexists. split; [vm_compute; reflexivity |].
  split; [reflexivity |]. split; [reflexivity |].
  apply (main_summary_adds_up Scenario.allForbidden Scenario.chapterOne
           DEFAULT_ADDITIONAL_PDFS (initialWorld Scenario.oneHeading)).
  vm_compute. reflexivity.
Defined.

(** ** Dry runs *)

Section DryRun.

Variable env : Env.
Variable cfg : Config.
Hypothesis Hdry : dryRun cfg = true.

Lemma dryRunOnly_refl w : dryRunOnly w w [].
Proof. unfold dryRunOnly. simpl. by rewrite app_nil_r. Qed.

Lemma dryRunOnly_trans w1 w2 w3 names1 names2 :
  dryRunOnly w1 w2 names1 -> dryRunOnly w2 w3 names2 -> dryRunOnly w1 w3 (names1 ++ names2).
Proof.
  intros (T1 & F1 & C1 & R1 & D1) (T2 & F2 & C2 & R2 & D2). unfold dryRunOnly.
  rewrite T2, T1, fmap_app, app_assoc. repeat split; congruence.
Qed.

Lemma countedDry_refl t : countedDry t t 0.
Proof. unfold countedDry. repeat split; lia. Qed.

Lemma countedDry_trans t1 t2 t3 n m :
  countedDry t1 t2 n -> countedDry t2 t3 m -> countedDry t1 t3 (n + m).
Proof. unfold countedDry. intros (? & ? & ? & ? & ? & ?) (? & ? & ? & ? & ? & ?).
  repeat split; (lia || congruence). Qed.

(** In a dry run an item is reported and counted; the directory is not even
    looked at to decide. *)
Lemma processItem_dryRun ref filename url t w :
  exists t' w',
    processItem env cfg ref filename url t w = (Ret t', w')
    /\ dryRunOnly w w' [filename] /\ countedDry t t' 1.
Proof.
  unfold processItem. rewrite Hdry. simpl. rewrite !andb_false_r. simpl.
  eexists _, _. split; [reflexivity |]. split.
  - unfold dryRunOnly. simpl. done.
  - unfold countedDry. simpl. repeat split; lia.
Qed.

Lemma forEach_dryRun {A} (names : A -> list string) (step : Totals -> A -> M Totals) xs t w :
  dryStep names step ->
  exists t' w',
    forEach step xs t w = (Ret t', w') /\ dryRunOnly w w' (concat (names <$> xs))
    /\ countedDry t t' (List.length (concat (names <$> xs))).
Proof.
  intros Hstep. revert t w. induction xs as [| x xs IH]; intros t w; simpl.
  - exists t, w. split; [done |]. split; [apply dryRunOnly_refl | apply countedDry_refl].
  - destruct (Hstep t x w) as (t1 & w1 & E1 & D1 & C1).
    destruct (IH t1 w1) as (t2 & w2 & E2 & D2 & C2).
    exists t2, w2. unfold bind. rewrite E1, E2. split; [done |].
    split; [by eapply dryRunOnly_trans |]. rewrite length_app. by eapply countedDry_trans.
Qed.

Lemma setCurrent_dryRun item w : dryRunOnly w (setCurrent item w).2 [].
Proof. unfold dryRunOnly. simpl. by rewrite app_nil_r. Qed.

Lemma additionalStep_dryRun ref :
  dryStep (fun pdfTemplate => [additionalFilename (edition cfg) pdfTemplate])
          (additionalStep env cfg ref).
Proof.
  intros t x w. unfold additionalStep, bind. simpl.
  destruct (processItem_dryRun ref (additionalFilename (edition cfg) x)
              (buildAdditionalUrl (edition cfg) (additionalFilename (edition cfg) x)) t
              (setCurrent (Additional (additionalFilename (edition cfg) x)) w).2)
    as (t' & w' & E & D & C).
  exists t', w'. split; [exact E |]. split; [| done].
  apply (dryRunOnly_trans _ _ _ [] _ (setCurrent_dryRun _ w) D).
Qed.

Lemma headingStep_dryRun ref chapter :
  dryStep (fun heading => [gridFilename (edition cfg) chapter heading])
          (headingStep env cfg ref None chapter).
Proof.
  intros t x w. unfold headingStep, bind. simpl.
  destruct (processItem_dryRun ref (gridFilename (edition cfg) chapter x)
              (buildUrl (edition cfg) chapter x) t
              (setCurrent (Grid chapter x) w).2)
    as (t' & w' & E & D & C).
  exists t', w'. split; [exact E |]. split; [| done].
  apply (dryRunOnly_trans _ _ _ [] _ (setCurrent_dryRun _ w) D).
Qed.

Lemma concat_singletons {A B} (f : A -> B) (l : list A) :
  concat ((fun x => [f x]) <$> l) = f <$> l.
Proof. induction l as [| x l IH]; [done |]. rewrite !fmap_cons. simpl. by f_equal. Qed.

Lemma chapterStep_dryRun ref :
  dryStep (fun chapter => gridFilename (edition cfg) chapter <$> generateHeadings chapter)
          (chapterStep env cfg ref None).
Proof.
  intros t chapter w.
  assert (chapterStep env cfg ref None t chapter w
          = forEach (headingStep env cfg ref None chapter) (generateHeadings chapter) t w)
    as chapterStep_runs by done.
  destruct (forEach_dryRun _ _ (generateHeadings chapter) t w (headingStep_dryRun ref chapter))
    as (t' & w' & E & D & C).
  rewrite (concat_singletons (gridFilename (edition cfg) chapter)) in D, C.
  rewrite chapterStep_runs. by exists t', w'.
Qed.

Lemma main_dryRun additionalPdfs w :
  exists t' w',
    main env cfg additionalPdfs w = (Ret t', w')
    /\ dryRunOnly w w' (plannedNames cfg additionalPdfs)
    /\ countedDry noTotals t' (List.length (plannedNames cfg additionalPdfs)).
Proof.
  unfold main, findResumePoint. rewrite Hdry, andb_false_r.
  destruct (forEach_dryRun _ _ additionalPdfs noTotals w
              (additionalStep_dryRun (mainPageUrl (edition cfg))))
    as (t1 & w1 & E1 & D1 & C1).
  destruct (forEach_dryRun _ _ (chapters cfg) t1 w1
              (chapterStep_dryRun (mainPageUrl (edition cfg))))
    as (t2 & w2 & E2 & D2 & C2).
  rewrite (concat_singletons (additionalFilename (edition cfg))) in D1, C1.
  exists t2, w2. unfold bind, ret. rewrite E1. rewrite E2. split; [done |].
  unfold plannedNames. split; [by eapply dryRunOnly_trans |].
  rewrite length_app. by eapply countedDry_trans.
Qed.

End DryRun.

(** X2. With [--dry-run] the run is offline and read-only: [main] returns,
    the only events are the reports [Would download] for every additional
    document and every heading code of every chapter, in order; no request is
    issued, nothing is slept, the directory and the cookie jar are unchanged;
    and every item is counted as attempted and as downloaded, whether or not
    its file is already on disk. *)
Theorem dry_run_is_offline (env : Env) (cfg : Config) (additionalPdfs : list string)
    (w : World) :
  dryRun cfg = true ->
  exists t,
    (main env cfg additionalPdfs w).1 = Ret t
    /\ trace (main env cfg additionalPdfs w).2
       = trace w ++ ((fun name => EvLog (DryRun name)) <$> plannedNames cfg additionalPdfs)
    /\ files (main env cfg additionalPdfs w).2 = files w
    /\ cookieJar (main env cfg additionalPdfs w).2 = cookieJar w
    /\ requests (main env cfg additionalPdfs w).2 = requests w
    /\ totalAttempted t = List.length additionalPdfs + 99 * List.length (chapters cfg)
    /\ totalDownloaded t = totalAttempted t
    /\ totalFailed t = 0 /\ totalSkipped t = 0.
Proof.
  intros Hdry.
  destruct (main_dryRun env cfg Hdry additionalPdfs w)
    as (t & w' & E & (T & F & C & R & _) & (At & Dl & Fl & Sk & _)).
  exists t. rewrite E. simpl in *.
  assert (List.length (plannedNames cfg additionalPdfs)
          = List.length additionalPdfs + 99 * List.length (chapters cfg)) as Hlen.
  { unfold plannedNames. rewrite length_app, length_fmap. f_equal.
    induction (chapters cfg) as [| c cs IH]; [simpl; lia |].
    rewrite fmap_cons. cbn [concat]. rewrite length_app, IH. unfold generateHeadings. rewrite !length_fmap, length_seq.
    cbn [List.length]. lia. }
  repeat split; try done; lia.
Qed.

(** ** What a download leaves behind *)

Section DownloadEffects.

Variable env : Env.










End DownloadEffects.




Lemma dry_run_is_offline_witness :
  dryRun Cases.dry = true
  /\ exists t,
       (main Scenario.allAbsent Cases.dry DEFAULT_ADDITIONAL_PDFS
          (initialWorld Scenario.oneHeading)).1 = Ret t
       /\ trace (main Scenario.allAbsent Cases.dry DEFAULT_ADDITIONAL_PDFS
                   (initialWorld Scenario.oneHeading)).2
          = trace (initialWorld Scenario.oneHeading)
            ++ ((fun name => EvLog (DryRun name))
                  <$> plannedNames Cases.dry DEFAULT_ADDITIONAL_PDFS)
       /\ files (main Scenario.allAbsent Cases.dry DEFAULT_ADDITIONAL_PDFS
                   (initialWorld Scenario.oneHeading)).2
          = files (initialWorld Scenario.oneHeading)
       /\ cookieJar (main Scenario.allAbsent Cases.dry DEFAULT_ADDITIONAL_PDFS
                       (initialWorld Scenario.oneHeading)).2
          = cookieJar (initialWorld Scenario.oneHeading)
       /\ requests (main Scenario.allAbsent Cases.dry DEFAULT_ADDITIONAL_PDFS
                      (initialWorld Scenario.oneHeading)).2
          = requests (initialWorld Scenario.oneHeading)
       /\ totalAttempted t
          = List.length DEFAULT_ADDITIONAL_PDFS + 99 * List.length (chapters Cases.dry)
       /\ totalDownloaded t = totalAttempted t
       /\ totalFailed t = 0 /\ totalSkipped t = 0.
Proof.
  split; [reflexivity |].
  apply (dry_run_is_offline Scenario.allAbsent Cases.dry DEFAULT_ADDITIONAL_PDFS
           (initialWorld Scenario.oneHeading)).
  reflexivity.
Defined.

(** ** A redirect whose target names an error *)

Section RedirectToError.

Variable env : Env.
Variable cfg : Config.



End RedirectToError.



(** ** The resume cursor *)

Section Cursor.

Variable env : Env.
Variable cfg : Config.

Lemma isDigit_digitAscii (d : nat) : d < 10 -> JsString.isDigit (digitAscii d) = true.
Proof. intros Hd. do 10 (destruct d as [| d]; [reflexivity |]). lia. Qed.

Lemma parseDigits_twoDigits (n : nat) :
  n < 100 -> Z.to_nat (JsString.parseDigits 0 (twoDigits n)) = n.
Proof.
  intros Hn.
  assert (Hall : forallb (fun k => (Z.to_nat (JsString.parseDigits 0 (twoDigits k)) =? k)%nat)
                   (seq 0 100) = true) by (vm_compute; reflexivity).
  rewrite forallb_forall in Hall. apply Nat.eqb_eq, Hall, in_seq. lia.
Qed.

Lemma matchCoordinate_twoDigits (edition : string) (chapter n : nat) :
  chapter < 100 -> n < 100 -> isYear edition = true ->
  matchCoordinate (twoDigits chapter +:+ twoDigits n +:+ "_" +:+ edition +:+ "e.pdf")
  = Some {| rpChapter := chapter; rpHeading := n |}.
Proof.
  intros Hc Hn Hy.
  destruct edition as [| y1 [| y2 [| y3 [| y4 [| y5 rest]]]]]; try done.
  rewrite <- (parseDigits_twoDigits chapter Hc) at 2.
  rewrite <- (parseDigits_twoDigits n Hn) at 2.
  assert (chapter / 10 < 10) by (apply Nat.Div0.div_lt_upper_bound; lia).
  assert (n / 10 < 10) by (apply Nat.Div0.div_lt_upper_bound; lia).
  assert (chapter mod 10 < 10) by (apply Nat.mod_upper_bound; lia).
  assert (n mod 10 < 10) by (apply Nat.mod_upper_bound; lia).
  unfold twoDigits, isYear in *. cbv [String.app String.append]. cbn [matchCoordinate].
  cbn [forallb] in *. rewrite !isDigit_digitAscii by done.
  apply andb_true_iff in Hy as [-> Hy]. apply andb_true_iff in Hy as [-> Hy].
  apply andb_true_iff in Hy as [-> Hy]. apply andb_true_iff in Hy as [-> _].
  reflexivity.
Qed.

(** Every step of a list of steps, each known for the elements of the
    list. *)
Lemma stepSpec_forEach_elem {A S} (P : Event -> Prop) (step : S -> A -> M S) xs s w :
  (forall s x w, x ∈ xs -> StepSpec cfg P (step s x) w) ->
  StepSpec cfg P (forEach step xs s) w.
Proof.
  revert s w. induction xs as [| x xs IH]; intros s w Hstep; simpl.
  - apply stepSpec_ret.
  - apply stepSpec_bind; [apply Hstep; by left |].
    intros s' w1. apply IH. intros s0 y w0 Hy. apply Hstep. by right.
Qed.

Lemma headingStep_beyond ref rp chapter t heading w :
  rpChapter rp <= chapter -> heading ∈ generateHeadings chapter ->
  StepSpec cfg (beyondCursor rp) (headingStep env cfg ref (Some rp) chapter t heading) w.
Proof.
  intros Hc Hh. unfold headingStep.
  destruct (_ && _) eqn:Hbehind; [apply stepSpec_ret |].
  eapply stepSpec_weaken; [| by apply stepSpec_item].
  intros e He c h Htag. specialize (He _ Htag). injection He as -> ->.
  split; [done |].
  apply generateHeadings_elem in Hh as (n & Hn & ->).
  exists n. split; [done |]. split; [symmetry; apply padStart_twoDigits; lia |].
  intros ->. rewrite Nat.eqb_refl in Hbehind. simpl in Hbehind.
  unfold headingReached in Hbehind.
  rewrite <- padStart_twoDigits in Hbehind by lia.
  change (JsString.padStart 2 "0" (JsString.ofNat n)) with (headingCode n) in Hbehind.
  rewrite parseInt_headingCode in Hbehind by done. lia.
Qed.

Lemma chapterStep_beyond ref rp t chapter w :
  StepSpec cfg (beyondCursor rp) (chapterStep env cfg ref (Some rp) t chapter) w.
Proof.
  unfold chapterStep. destruct (chapter <? rpChapter rp)%nat eqn:Hc; [apply stepSpec_ret |].
  apply Nat.ltb_ge in Hc. apply stepSpec_forEach_elem.
  intros t0 h w0 Hh. by apply headingStep_beyond.
Qed.

End Cursor.

(** X6. The file names of the grid are the names the resume scan reads back:
    for a four-digit edition, a chapter below 100 and a heading of 1 to 99,
    the pattern of [findResumePoint] matches the file name that [main] gives
    the item, and captures that chapter and that heading. *)
Theorem cursor_reads_back_grid_name (edition : string) (chapter n : nat) :
  isYear edition = true -> chapter < 100 -> 1 <= n <= 99 ->
  matchCoordinate (gridFilename edition chapter (headingCode n))
  = Some {| rpChapter := chapter; rpHeading := n |}.
Proof.
  intros Hy Hc Hn. unfold headingCode. rewrite padStart_twoDigits by lia.
  rewrite gridFilename_twoDigits by done. apply matchCoordinate_twoDigits; (done || lia).
Qed.

Lemma cursor_reads_back_grid_name_witness :
  isYear "2022" = true
  /\ matchCoordinate (gridFilename "2022" 97 (headingCode 6))
     = Some {| rpChapter := 97; rpHeading := 6 |}.
Proof.
  split; [reflexivity |]. apply (cursor_reads_back_grid_name "2022" 97 6); (reflexivity || lia).
Defined.

(** X7. With a resume cursor, the chapter loop of [main] issues no request at
    or before it: every request of the loop is for a chapter not below the
    chapter of the cursor, and, in that chapter, for a heading above the
    heading of the cursor. *)
Theorem resume_skips_up_to_cursor (env : Env) (cfg : Config) (ref : string)
    (rp : ResumePoint) (chapterList : list nat) (t : Totals) (w : World) :
  exists evs,
    trace (forEach (chapterStep env cfg ref (Some rp)) chapterList t w).2 = trace w ++ evs
    /\ Forall (beyondCursor rp) evs.
Proof.
  destruct (stepSpec_forEach cfg (beyondCursor rp) (chapterStep env cfg ref (Some rp))
              chapterList t w (fun s x w0 => chapterStep_beyond env cfg ref rp s x w0))
    as (o & w' & evs & (E & T) & _ & _ & HP).
  exists evs. rewrite E. by split.
Qed.

(** ** The order of file names *)

Section NameOrder.

Lemma string_compare_le_trans (a b c : string) :
  String.compare a b <> Gt -> String.compare b c <> Gt -> String.compare a c <> Gt.
Proof.
  revert b c. induction a as [| x a IH]; intros [| y b] [| z c]; simpl; try done.
  unfold Ascii.compare.
  destruct (N.compare_spec (N_of_ascii x) (N_of_ascii y)) as [Exy | Lxy | Gxy];
    destruct (N.compare_spec (N_of_ascii y) (N_of_ascii z)) as [Eyz | Lyz | Gyz];
    destruct (N.compare_spec (N_of_ascii x) (N_of_ascii z)) as [Exz | Lxz | Gxz];
    try done; try lia.
  apply IH.
Qed.

Lemma stringLe_compare (a b : string) : stringLe a b <-> String.compare a b <> Gt.
Proof. unfold stringLe, String.leb. by destruct (String.compare a b). Qed.

#[local] Instance stringLe_transitive : Transitive stringLe.
Proof.
  intros a b c Hab Hbc. apply stringLe_compare.
  eapply string_compare_le_trans; by apply stringLe_compare.
Qed.

#[local] Instance stringLe_total : Total stringLe.
Proof. intros a b. apply String.leb_total. Qed.

(** The last element of a sorted list is above every element. *)
Lemma last_StronglySorted {A} (R : relation A) (l : list A) (m : A) :
  StronglySorted R l -> last l = Some m -> forall x, x ∈ l -> x = m \/ R x m.
Proof.
  induction 1 as [| y l Hs IH Hy]; intros Hlast x Hx; [by apply elem_of_nil in Hx |].
  destruct l as [| z l].
  - injection Hlast as <-. apply list_elem_of_singleton in Hx. by left.
  - change (last (y :: z :: l)) with (last (z :: l)) in Hlast.
    apply elem_of_cons in Hx as [-> | Hx]; [| by apply IH].
    right. rewrite Forall_forall in Hy. apply Hy.
    apply last_Some_elem_of. exact Hlast.
Qed.

Lemma last_sortStrings (l : list string) (name : string) :
  name ∈ l ->
  exists greatest, last (sortStrings l) = Some greatest /\ greatest ∈ l
                   /\ forall x, x ∈ l -> stringLe x greatest.
Proof.
  intros Hname. unfold sortStrings.
  pose proof (merge_sort_Permutation stringLe l) as Hperm.
  destruct (last (merge_sort stringLe l)) as [greatest |] eqn:Hlast.
  - exists greatest. split; [done |]. split.
    + rewrite <- Hperm. by apply last_Some_elem_of.
    + intros x Hx. rewrite <- Hperm in Hx.
      destruct (last_StronglySorted stringLe _ _ (StronglySorted_merge_sort stringLe l)
                  Hlast x Hx) as [-> | H]; [| done].
      apply stringLe_compare. destruct (String.leb_total greatest greatest) as [H | H];
        by apply stringLe_compare in H.
  - apply last_None in Hlast. rewrite <- Hperm, Hlast in Hname. by apply elem_of_nil in Hname.
Qed.

Lemma digit_code (c : ascii) :
  JsString.isDigit c = true ->
  (48 <= N_of_ascii c <= 57)%N /\ JsString.digitValue c = (Z.of_N (N_of_ascii c) - 48)%Z.
Proof.
  unfold JsString.isDigit, JsString.digitValue, nat_of_ascii. intros H.
  apply andb_true_iff in H as [H1 H2]. apply Nat.leb_le in H1, H2. lia.
Qed.

Lemma matchCoordinate_inv (name : string) (rp : ResumePoint) :
  matchCoordinate name = Some rp ->
  exists c1 c2 h1 h2 y1 y2 y3 y4,
    name = String c1 (String c2 (String h1 (String h2 (String "_"
             (String y1 (String y2 (String y3 (String y4 "e.pdf"))))))))
    /\ forallb JsString.isDigit [c1; c2; h1; h2] = true
    /\ rpChapter rp = Z.to_nat (JsString.parseDigits 0 (String c1 (String c2 "")))
    /\ rpHeading rp = Z.to_nat (JsString.parseDigits 0 (String h1 (String h2 ""))).
Proof.
  intros H.
  destruct name as [| c1 [| c2 [| h1 [| h2 [| u [| y1 [| y2 [| y3 [| y4 rest]]]]]]]]];
    cbn [matchCoordinate] in H; try discriminate H.
  1-4: destruct u as [[] [] [] [] [] [] [] []]; discriminate H.
  destruct (Ascii.eqb_spec u "_"%char) as [-> |]; [| destruct u as [[] [] [] [] [] [] [] []]; (discriminate H || congruence)].
  destruct (forallb _ _ && _) eqn:Hc; [| done]. injection H as <-.
  apply andb_true_iff in Hc as [Hd Hrest]. apply String.eqb_eq in Hrest as ->.
  exists c1, c2, h1, h2, y1, y2, y3, y4. split; [done |]. split; [| done].
  cbn [forallb] in *. repeat (apply andb_true_iff in Hd as [-> Hd]). done.
Qed.

Lemma matchCoordinate_endsWith (name : string) (rp : ResumePoint) :
  matchCoordinate name = Some rp -> JsString.endsWith ".pdf" name = true.
Proof.
  intros H. apply matchCoordinate_inv in H as (c1 & c2 & h1 & h2 & y1 & y2 & y3 & y4 & -> & _).
  reflexivity.
Qed.

Lemma parseDigits_pair (a b : ascii) :
  JsString.isDigit a = true -> JsString.isDigit b = true ->
  JsString.parseDigits 0 (String a (String b ""))
  = (10 * (Z.of_N (N_of_ascii a) - 48) + (Z.of_N (N_of_ascii b) - 48))%Z.
Proof.
  intros Ha Hb. rewrite !parseDigits_digit by done. cbn [JsString.parseDigits].
  destruct (digit_code a Ha) as [_ ->]. destruct (digit_code b Hb) as [_ ->]. lia.
Qed.

(** Names that the pattern matches are ordered like their coordinates. *)
Lemma stringLe_coordinateLe (name1 name2 : string) (rp1 rp2 : ResumePoint) :
  matchCoordinate name1 = Some rp1 -> matchCoordinate name2 = Some rp2 ->
  stringLe name1 name2 -> coordinateLe rp1 rp2.
Proof.
  intros H1 H2 Hle.
  apply matchCoordinate_inv in H1 as (a1 & a2 & a3 & a4 & ? & ? & ? & ? & -> & Da & Ca & Ha).
  apply matchCoordinate_inv in H2 as (b1 & b2 & b3 & b4 & ? & ? & ? & ? & -> & Db & Cb & Hb).
  cbn [forallb] in Da, Db.
  apply andb_true_iff in Da as [Da1 Da]. apply andb_true_iff in Da as [Da2 Da].
  apply andb_true_iff in Da as [Da3 Da]. apply andb_true_iff in Da as [Da4 _].
  apply andb_true_iff in Db as [Db1 Db]. apply andb_true_iff in Db as [Db2 Db].
  apply andb_true_iff in Db as [Db3 Db]. apply andb_true_iff in Db as [Db4 _].
  rewrite parseDigits_pair in Ca, Ha, Cb, Hb by done.
  pose proof (proj1 (digit_code _ Da1)). pose proof (proj1 (digit_code _ Da2)).
  pose proof (proj1 (digit_code _ Da3)). pose proof (proj1 (digit_code _ Da4)).
  pose proof (proj1 (digit_code _ Db1)). pose proof (proj1 (digit_code _ Db2)).
  pose proof (proj1 (digit_code _ Db3)). pose proof (proj1 (digit_code _ Db4)).
  apply stringLe_compare in Hle. cbn [String.compare] in Hle. unfold Ascii.compare in Hle.
  unfold coordinateLe. rewrite Ca, Ha, Cb, Hb.
  destruct (N.compare_spec (N_of_ascii a1) (N_of_ascii b1)); [| lia | done].
  destruct (N.compare_spec (N_of_ascii a2) (N_of_ascii b2)); [| lia | done].
  destruct (N.compare_spec (N_of_ascii a3) (N_of_ascii b3)); [| lia | done].
  destruct (N.compare_spec (N_of_ascii a4) (N_of_ascii b4)); [| lia | done].
  lia.
Qed.

Lemma readdir_entries (w : World) (name : string) :
  name ∈ (fst <$> map_to_list (files w)) <-> is_Some (files w !! name).
Proof.
  rewrite list_elem_of_fmap. split.
  - intros ([k v] & -> & H). apply elem_of_map_to_list in H. by exists v.
  - intros [v H]. exists (name, v). split; [done |]. by apply elem_of_map_to_list.
Qed.

End NameOrder.

(** X8. When every [.pdf] entry of the output directory is a coordinate
    file name, the resume cursor is the greatest coordinate (by chapter, then
    by heading) among the files on disk, and it is found as soon as one such
    file exists. *)
Theorem cursor_is_greatest_coordinate (cfg : Config) (w : World) (present : string) :
  resume cfg = true -> dryRun cfg = false ->
  (forall name, is_Some (files w !! name) -> JsString.endsWith ".pdf" name = true ->
                is_Some (matchCoordinate name)) ->
  is_Some (files w !! present) -> JsString.endsWith ".pdf" present = true ->
  exists rp name,
    (findResumePoint cfg w).1 = Ret (Some rp)
    /\ is_Some (files w !! name) /\ matchCoordinate name = Some rp
    /\ forall name' rp', is_Some (files w !! name') -> matchCoordinate name' = Some rp' ->
                         coordinateLe rp' rp.
Proof.
  intros Hresume Hdry Hall Hpresent Hpdf.
  set (entries := fst <$> map_to_list (files w)).
  assert (forall name, name ∈ List.filter (JsString.endsWith ".pdf") entries
                       <-> is_Some (files w !! name) /\ JsString.endsWith ".pdf" name = true)
    as Hfiltered.
  { intros name. rewrite list_elem_of_In, filter_In, <- list_elem_of_In.
    unfold entries. by rewrite readdir_entries. }
  destruct (last_sortStrings (List.filter (JsString.endsWith ".pdf") entries) present)
    as (greatest & Hlast & Hin & Hmax); [by apply Hfiltered |].
  apply Hfiltered in Hin as [Hon Hext].
  destruct (Hall greatest Hon Hext) as [rp Hrp].
  exists rp, greatest. split; [| split; [done | split; [done |]]].
  - unfold findResumePoint, readdir, bind, getFiles, ret, log. rewrite Hresume, Hdry. simpl.
    fold entries. rewrite Hlast, Hrp. reflexivity.
  - intros name' rp' Hon' Hrp'. eapply stringLe_coordinateLe; [exact Hrp' | exact Hrp |].
    apply Hmax, Hfiltered. split; [done |]. by eapply matchCoordinate_endsWith.
Qed.

Lemma cursor_is_greatest_coordinate_witness :
  resume Scenario.resuming = true /\ dryRun Scenario.resuming = false
  /\ exists rp name,
       (findResumePoint Scenario.resuming (initialWorld Scenario.fiveHeadings)).1
       = Ret (Some rp)
       /\ is_Some (files (initialWorld Scenario.fiveHeadings) !! name)
       /\ matchCoordinate name = Some rp
       /\ forall name' rp',
            is_Some (files (initialWorld Scenario.fiveHeadings) !! name') ->
            matchCoordinate name' = Some rp' -> coordinateLe rp' rp.
Proof.
  split; [reflexivity |]. split; [reflexivity |].
  apply (cursor_is_greatest_coordinate Scenario.resuming (initialWorld Scenario.fiveHeadings)
           "0103_2022e.pdf").
  - reflexivity.
  - reflexivity.
  - intros name Hname _.
    apply (readdir_entries (initialWorld Scenario.fiveHeadings)) in Hname.
    assert (fst <$> map_to_list (files (initialWorld Scenario.fiveHeadings))
            = ["0103_2022e.pdf"; "0105_2022e.pdf"; "0101_2022e.pdf"; "0102_2022e.pdf";
               "0104_2022e.pdf"]) as Hlist by (vm_compute; reflexivity).
    rewrite Hlist in Hname. clear Hlist.
    repeat (apply elem_of_cons in Hname as [-> | Hname]; [eexists; vm_compute; reflexivity |]).
    by apply elem_of_nil in Hname.
  - eexists. vm_compute. reflexivity.
  - vm_compute. reflexivity.
Defined.
